(** * Caldera server: start-up code (server.py) and the engine it boots

    The first part embeds [server.py]: the environment check
    ([validate_environment]), the choice of configuration files, and the
    boot sequence ([run_tasks], [start_server], the [__main__] block).
    The second part models the engine components that [server.py] only
    starts (fact store, result pipeline, scheduler, and the handling of
    their errors). *)

From Stdlib Require Import ZArith NArith Ascii String List Lia Bool.
From stdpp Require Import gmap strings list.

(** ** Python's [re.search] for the two patterns of [validate_environment]

    Both patterns have the shape [LITERAL([0-9\.]+)]: a literal prefix
    (empty for python, [go] for go) followed by one capture group, a
    non-empty greedy run of digits and dots. *)
Module Regex.

Record pattern := Pattern { literal : string }.

Definition is_digit (c : ascii) : bool :=
  ((48 <=? N_of_ascii c) && (N_of_ascii c <=? 57))%N.

(** The character class [[0-9\.]]. *)
Definition in_class (c : ascii) : bool := is_digit c || Ascii.eqb c ".".

(** The greedy run [[0-9\.]*] at the head of [s]. *)
Fixpoint run (s : string) : string :=
  match s with
  | String c r => if in_class c then String c (run r) else EmptyString
  | EmptyString => EmptyString
  end.

(** The pattern anchored at the head of [s]; the result is group 1. *)
Fixpoint match_at (lit s : string) : option string :=
  match lit with
  | EmptyString =>
      match s with
      | String c _ => if in_class c then Some (run s) else None
      | EmptyString => None
      end
  | String a lit' =>
      match s with
      | String c r => if Ascii.eqb a c then match_at lit' r else None
      | EmptyString => None
      end
  end.

(** [re.search(pattern, s)]: the leftmost position where the pattern
    matches; [None] is Python's [None]. *)
Fixpoint search (p : pattern) (s : string) : option string :=
  match match_at (literal p) s with
  | Some g => Some g
  | None =>
      match s with
      | EmptyString => None
      | String _ r => search p r
      end
  end.

End Regex.

(** ** [distutils.version.StrictVersion]

    [version_re] is [^(\d+) \. (\d+) (\. (\d+))? ([ab](\d+))?$] with
    [re.VERBOSE | re.ASCII]; comparison is [_cmp]. *)
Module StrictVersion.

Record t := Version { version : N * N * N; prerelease : option (ascii * N) }.

Definition digit_value (c : ascii) : N := (N_of_ascii c - 48)%N.

(** [int] of the greedy run of digits at the head of [s], and the rest. *)
Fixpoint digits (s : string) (acc : N) : N * string :=
  match s with
  | String c r =>
      if Regex.is_digit c then digits r (10 * acc + digit_value c)%N
      else (acc, s)
  | EmptyString => (acc, s)
  end.

(** [(\d+)]: at least one digit. *)
Definition number (s : string) : option (N * string) :=
  match s with
  | String c _ => if Regex.is_digit c then Some (digits s 0%N) else None
  | EmptyString => None
  end.

(** [$] without [re.MULTILINE]: the end, or just before a final newline. *)
Definition at_end (s : string) : bool :=
  match s with
  | EmptyString => true
  | String c EmptyString => Ascii.eqb c "010"
  | _ => false
  end.

(** [(\. (\d+))?] *)
Definition opt_patch (s : string) : option N * string :=
  match s with
  | String "." r =>
      match number r with
      | Some (p, r') => (Some p, r')
      | None => (None, s)
      end
  | _ => (None, s)
  end.

(** [([ab](\d+))?] *)
Definition opt_prerelease (s : string) : option (ascii * N) * string :=
  match s with
  | String c r =>
      if Ascii.eqb c "a" || Ascii.eqb c "b" then
        match number r with
        | Some (n, r') => (Some (c, n), r')
        | None => (None, s)
        end
      else (None, s)
  | EmptyString => (None, s)
  end.

(** [StrictVersion(vstring)]; [None] is the [ValueError] of [parse]. *)
Definition parse (vstring : string) : option t :=
  match number vstring with
  | Some (major, String "." r1) =>
      match number r1 with
      | Some (minor, r2) =>
          let '(patch, r3) := opt_patch r2 in
          let '(pre, r4) := opt_prerelease r3 in
          if at_end r4 then
            Some {| version := (major, minor, default 0%N patch);
                    prerelease := pre |}
          else None
      | None => None
      end
  | _ => None
  end.

(** Python's [<] on the 3-tuples of ints. *)
Definition tuple_ltb (a b : N * N * N) : bool :=
  let '(a1, a2, a3) := a in
  let '(b1, b2, b3) := b in
  ((a1 <? b1) || ((a1 =? b1) && ((a2 <? b2) || ((a2 =? b2) && (a3 <? b3)))))%N.

Definition tuple_eqb (a b : N * N * N) : bool :=
  let '(a1, a2, a3) := a in
  let '(b1, b2, b3) := b in
  ((a1 =? b1) && (a2 =? b2) && (a3 =? b3))%N.

(** Python's comparison of the [(letter, number)] prerelease tuples. *)
Definition pre_cmp (p q : ascii * N) : Z :=
  let '(c, n) := p in
  let '(d, m) := q in
  if (N_of_ascii c <? N_of_ascii d)%N then (-1)%Z
  else if (N_of_ascii d <? N_of_ascii c)%N then 1%Z
  else if (n <? m)%N then (-1)%Z
  else if (m <? n)%N then 1%Z
  else 0%Z.

(** [_cmp]: the numeric versions decide; on a tie a prerelease is earlier
    than the release. *)
Definition cmp (a b : t) : Z :=
  if negb (tuple_eqb (version a) (version b)) then
    if tuple_ltb (version a) (version b) then (-1)%Z else 1%Z
  else
    match prerelease a, prerelease b with
    | None, None => 0%Z
    | Some _, None => (-1)%Z
    | None, Some _ => 1%Z
    | Some p, Some q => pre_cmp p q
    end.

(** [__le__]: [c <= 0]. *)
Definition le (a b : t) : bool := (cmp a b <=? 0)%Z.

End StrictVersion.

(** ** The process: the event loop and what an observer sees

    The coroutines that [server.py] hands to the event loop live in the
    services; only [build_docs] and [start_server] are defined in
    [server.py] itself. *)
Module Py.

Inductive coro :=
| build_docs | restore_state | rest_api_enable | register_contacts
| load_plugins | load_data | start_sniffer_untrusted_agents
| resume_operations | run_scheduler | build_model | start_server
| teardown | destroy.

#[global] Instance coro_eq_dec : EqDecision coro.
Proof. solve_decision. Defined.

(** The services that the [__main__] block constructs (lines 103-110), in
    its order. *)
Inductive service :=
| data_svc | contact_svc | planning_svc | rest_svc | auth_svc | file_svc
| learning_svc | app_svc.

#[global] Instance service_eq_dec : EqDecision service.
Proof. solve_decision. Defined.

Inductive exn :=
| AttributeError                 (* [None.group(1)] *)
| ValueError (vstring : string)  (* [StrictVersion] on a bad string *)
| IndexError                     (* [[][0]] *)
| OSError (path : string)        (* a file that cannot be read *)
| ServiceError (c : coro)        (* a service coroutine that raises *)
| ConstructorError (s : service) (* a service constructor that raises *)
| KeyboardInterrupt.             (* not an [Exception] *)

Definition is_exception (e : exn) : bool :=
  match e with
  | KeyboardInterrupt => false
  | _ => true
  end.

Inductive log_record :=
| LogError (msg : string)
| LogDebug (e : exn)
| LogInfo (msg : string).

Inductive event :=
| Log (r : log_record)
| Created (c : coro)       (* the coroutine is wrapped in a task *)
| Started (c : coro)       (* the loop runs the first step of the task *)
| Completed (c : coro)     (* [run_until_complete] returns *)
| AuthApply
| AddStatic (prefix path : string)
| RunnerSetup
| TCPSiteStart (host : string)
| RunForever.

(** [ready]: the tasks created and not yet given their first step, in the
    order of creation (the loop's FIFO of callbacks). *)
Record process := Process { ready : list coro; trace : list event }.

Definition initial : process := {| ready := []; trace := [] |}.

Inductive outcome (A : Type) :=
| Normal (a : A)
| Raised (e : exn)
| Exited (code : Z)   (* [sys.exit]: [SystemExit] is not an [Exception] *)
| Serving.            (* inside [run_forever], which does not return *)
Arguments Normal {A} a.
Arguments Raised {A} e.
Arguments Exited {A} code.
Arguments Serving {A}.

Definition M (A : Type) : Type := process -> process * outcome A.

Definition ret {A} (a : A) : M A := fun p => (p, Normal a).

Definition bind {A B} (m : M A) (k : A -> M B) : M B :=
  fun p =>
    match m p with
    | (p', Normal a) => k a p'
    | (p', Raised e) => (p', Raised e)
    | (p', Exited c) => (p', Exited c)
    | (p', Serving) => (p', Serving)
    end.

#[global] Instance M_ret : MRet M := @ret.
#[global] Instance M_bind : MBind M := fun A B k m => bind m k.

Definition raise {A} (e : exn) : M A := fun p => (p, Raised e).
Definition sys_exit {A} (code : Z) : M A := fun p => (p, Exited code).

Definition emit (es : list event) : M unit :=
  fun p => ({| ready := ready p; trace := trace p ++ es |}, Normal tt).

Definition log (r : log_record) : M unit := emit [Log r].

(** [try: body  except Exception as e: handler(e)] *)
Definition try_except {A} (body : M A) (handler : exn -> M A) : M A :=
  fun p =>
    match body p with
    | (p', Raised e) =>
        if is_exception e then handler e p' else (p', Raised e)
    | other => other
    end.

(** [try: body  except KeyboardInterrupt: handler] *)
Definition try_except_interrupt {A} (body : M A) (handler : M A) : M A :=
  fun p =>
    match body p with
    | (p', Raised KeyboardInterrupt) => handler p'
    | other => other
    end.

(** [for x in xs: f(x)] *)
Fixpoint for_each {A} (f : A -> M unit) (xs : list A) : M unit :=
  match xs with
  | [] => mret tt
  | x :: rest => f x ;; for_each f rest
  end.

(** [o.group(1)] on the result of [re.search]. *)
Definition group1 (o : option string) : M string :=
  match o with
  | Some g => mret g
  | None => raise AttributeError
  end.

Definition strict_version (vstring : string) : M StrictVersion.t :=
  match StrictVersion.parse vstring with
  | Some v => mret v
  | None => raise (ValueError vstring)
  end.

(** The machine and the services the server runs with. *)
Record world := World {
  (** [subprocess.getstatusoutput]: status and output of a command *)
  getstatusoutput : string -> Z * string;
  (** whether the constructor of a service returns; otherwise it raises *)
  constructs : service -> bool;
  (** whether a coroutine of the services returns; otherwise it raises *)
  completes : coro -> bool;
  (** for a coroutine that raises: how many actions of its body had
      returned before the one that raised *)
  reached : coro -> nat;
  (** whether Ctrl-C arrives while the loop runs forever *)
  interrupted : bool
}.

(** What a coroutine whose code is in [server.py] does once it runs to
    its end. [build_docs] is only ever a background task: its subprocess
    runs beside the boot sequence and leaves no event. *)
Definition body (c : coro) : list event :=
  match c with
  | start_server =>
      [AuthApply; AddStatic "/docs/" "docs/_build/html"; RunnerSetup;
       TCPSiteStart "0.0.0.0"]
  | _ => []
  end.

(** The first [n] events of [l]: the actions that had returned. *)
Fixpoint done_before (l : list event) (n : nat) : list event :=
  match l with
  | [] => []
  | e :: rest =>
      match n with
      | O => []
      | S k => e :: done_before rest k
      end
  end.

(** [loop.create_task(c)]: the task is queued, nothing runs yet. *)
Definition create_task (c : coro) : M unit :=
  fun p =>
    ({| ready := ready p ++ [c]; trace := trace p ++ [Created c] |},
     Normal tt).

(** The loop gives every queued task its first step in FIFO order and
    keeps running until [c] is done. Later steps of the other tasks
    interleave with [c] and are not recorded. When [c] raises, one action
    of its body raised: the actions before it have returned, the last
    event of the body has not happened. *)
Definition run_until_done (w : world) (c : coro) : M unit :=
  fun p =>
    let started := trace p ++ map Started (ready p) in
    if completes w c then
      ({| ready := []; trace := started ++ body c ++ [Completed c] |},
       Normal tt)
    else
      ({| ready := [];
          trace := started
                   ++ done_before (removelast (body c)) (reached w c) |},
       Raised (ServiceError c)).

(** [loop.run_until_complete(c)]: [c] becomes the last queued task, then
    the loop runs until [c] is done. *)
Definition run_until_complete (w : world) (c : coro) : M unit :=
  create_task c;; run_until_done w c.

(** [loop.run_forever()]: queued tasks get their first step; the call
    only ends with the [KeyboardInterrupt] of Ctrl-C. *)
Definition run_forever (w : world) : M unit :=
  fun p =>
    let p' := {| ready := [];
                 trace := trace p ++ map Started (ready p) ++ [RunForever] |} in
    if interrupted w then (p', Raised KeyboardInterrupt) else (p', Serving).

End Py.

(** ** [validate_environment] *)
Module Validate.
Import Py.

Definition versions : list (string * (string * Regex.pattern * string)) :=
  [ ("python", ("python --version", Regex.Pattern "", "3.6.1"));
    ("go", ("go version", Regex.Pattern "go", "1.11")) ].

Definition below_minimum_msg (exe version min_version : string) : string :=
  "installed " +:+ exe +:+ " version " +:+ version
  +:+ " is below the required minimum version " +:+ min_version.

Definition exiting_msg : string :=
  "Environment is not properly configured for running Caldera, Exiting".

(** The body of the [for] loop. *)
Definition check (w : world)
    (item : string * (string * Regex.pattern * string)) : M unit :=
  let '(exe, params) := item in
  let '(cmd, pattern, min_version) := params in
  let '(failed, output) := getstatusoutput w cmd in
  if (failed =? 0)%Z then
    version ← group1 (Regex.search pattern output);
    v ← strict_version version;
    m ← strict_version min_version;
    if StrictVersion.le v m then
      log (LogError (below_minimum_msg exe version min_version));;
      log (LogError exiting_msg);;
      sys_exit 1%Z
    else mret tt
  else mret tt.

Definition validate_environment (w : world) : M bool :=
  try_except
    (for_each (check w) versions;; mret true)
    (fun e => log (LogDebug e);; mret false).

(** The three ways one entry of [versions] can go. *)
Section Probes.
Variable w : world.

Definition probe := (string * (string * Regex.pattern * string))%type.

Definition status_of (item : probe) : Z :=
  (getstatusoutput w item.2.1.1).1.
Definition output_of (item : probe) : string :=
  (getstatusoutput w item.2.1.1).2.
Definition pattern_of (item : probe) : Regex.pattern := item.2.1.2.
Definition minimum_of (item : probe) : string := item.2.2.

(** The command exits successfully, its output matches the pattern and
    the parsed version is less than or equal to the minimum. *)
Definition rejected (item : probe) : Prop :=
  status_of item = 0%Z /\
  exists version v m,
    Regex.search (pattern_of item) (output_of item) = Some version /\
    StrictVersion.parse version = Some v /\
    StrictVersion.parse (minimum_of item) = Some m /\
    StrictVersion.le v m = true.

(** The command fails (a missing tool included), or the version it
    reports is strictly above the minimum. *)
Definition accepted (item : probe) : Prop :=
  status_of item <> 0%Z \/
  exists version v m,
    Regex.search (pattern_of item) (output_of item) = Some version /\
    StrictVersion.parse version = Some v /\
    StrictVersion.parse (minimum_of item) = Some m /\
    StrictVersion.le v m = false.

(** The command exits successfully and no version can be read. *)
Definition unreadable (item : probe) (e : exn) : Prop :=
  status_of item = 0%Z /\
  match Regex.search (pattern_of item) (output_of item) with
  | None => e = AttributeError
  | Some version =>
      match StrictVersion.parse version with
      | None => e = ValueError version
      | Some _ =>
          StrictVersion.parse (minimum_of item) = None /\
          e = ValueError (minimum_of item)
      end
  end.

(** [item] is the first entry of [l] that is not accepted. *)
Definition first_not_accepted (l : list probe) (item : probe) : Prop :=
  exists before after,
    l = before ++ item :: after /\ Forall accepted before.
End Probes.

End Validate.

(** ** The [__main__] block, [run_tasks] and [start_server] *)
Module Server.
Import Py.

Record arguments := Arguments_ { environment : string; fresh : bool }.

(** What [parser.parse_args()] makes of the command line: the parsed
    arguments, or the end of the process ([-h] prints the help and exits
    with 0, a command line that the parser does not accept exits with
    2). *)
Inductive command_line :=
| Parsed (args : arguments)
| Help
| Usage_error.

Definition parse_args (cmd : command_line) : M arguments :=
  match cmd with
  | Parsed args => mret args
  | Help => sys_exit 0%Z
  | Usage_error => sys_exit 2%Z
  end.

Section Configuration.
(** A parsed YAML document; [strip_yml] and [apply_config] belong to
    [BaseWorld], whose code is not part of [server.py]. *)
Context {yml : Type}.
(** [pathlib.Path(p).exists()]: the answer, [None] when the call raises
    [OSError] (a name that is too long, a directory that may not be
    searched). *)
Variable path_exists : string -> option bool.
(** [BaseWorld.strip_yml(p)]: the documents of the file, [None] when the
    call raises. *)
Variable strip_yml : string -> option (list yml).

(** ['conf/%s.yml' % name] *)
Definition conf_path (name : string) : string :=
  "conf/" +:+ name +:+ ".yml".

(** [BaseWorld.strip_yml(path)[0]] *)
Definition first_document (path : string) : M yml :=
  match strip_yml path with
  | None => raise (OSError path)
  | Some [] => raise IndexError
  | Some (d :: _) => mret d
  end.

(** [BaseWorld.apply_config(name, config)] *)
Definition apply_config (name : string) (config : yml)
    (store : gmap string yml) : gmap string yml :=
  <[name := config]> store.

(** The file holds at least one document. *)
Definition loadable (path : string) : Prop :=
  exists d rest, strip_yml path = Some (d :: rest).

(** The first document of a file, when there is one. *)
Definition document (path : string) : option yml :=
  strip_yml path ≫= head.

(** [pathlib.Path(path).exists()] *)
Definition exists_ (path : string) : M bool :=
  match path_exists path with
  | Some found => mret found
  | None => raise (OSError path)
  end.

(** Lines 98-101. *)
Definition load_configuration (args : arguments) : M (gmap string yml) :=
  found ← exists_ (conf_path (environment args));
  d ← first_document
        (conf_path (if found : bool then environment args else "default"));
  a ← first_document "conf/agents.yml";
  p ← first_document "conf/payloads.yml";
  mret (apply_config "payloads" p
          (apply_config "agents" a (apply_config "default" d ∅))).
End Configuration.

Definition all_systems_ready : string := "All systems ready.".

Definition run_tasks (w : world) : M unit :=
  create_task build_docs;;
  run_until_complete w restore_state;;
  run_until_complete w rest_api_enable;;
  run_until_complete w register_contacts;;
  run_until_complete w load_plugins;;
  run_until_complete w load_data;;
  create_task start_sniffer_untrusted_agents;;
  create_task resume_operations;;
  create_task run_scheduler;;
  create_task build_model;;
  run_until_complete w start_server;;
  try_except_interrupt
    (log (LogInfo all_systems_ready);; run_forever w)
    (run_until_complete w teardown).

(** Lines 103-110: the services are constructed one after the other. *)
Definition services : list service :=
  [data_svc; contact_svc; planning_svc; rest_svc; auth_svc; file_svc;
   learning_svc; app_svc].

Definition construct (w : world) (s : service) : M unit :=
  if constructs w s then mret tt else raise (ConstructorError s).

(** The [__main__] block. [setup_logger] configures the root logger at
    level DEBUG, so every record below is emitted; it leaves no event. *)
Definition main {yml : Type} (w : world)
    (path_exists : string -> option bool)
    (strip_yml : string -> option (list yml)) (cmd : command_line)
    : M (gmap string yml) :=
  Validate.validate_environment w;;
  args ← parse_args cmd;
  config ← load_configuration path_exists strip_yml args;
  for_each (construct w) services;;
  (if fresh args then run_until_complete w destroy else mret tt);;
  run_tasks w;;
  mret config.

End Server.

(** ** Fact Store *)
Module FactStore.

(** Modelled from the spec: the Fact and the Fact Store of an operation
    (the engine's code is not part of [server.py]). A Fact is
    [(trait, value, source, score)], unique by [(trait, value)]; the store
    keeps the facts in insertion order. *)
Record fact := Fact {
  trait : string; value : string; source : string; score : Z
}.

Definition key (f : fact) : string * string := (trait f, value f).

Definition store := list fact.

(** Modelled from the spec: [add(trait, value, source, score)], the
    upsert keyed by [(trait, value)]. A later write with the same key
    updates [source] and [score] in place; a new key goes to the end. *)
Fixpoint add (f : fact) (s : store) : store :=
  match s with
  | [] => [f]
  | g :: rest =>
      if bool_decide (key g = key f) then f :: rest else g :: add f rest
  end.

(** A sequence of [add] calls, the first call first. *)
Definition add_all (calls : list fact) (s : store) : store :=
  fold_left (fun acc f => add f acc) calls s.

(** The fact stored under a key. *)
Definition find (k : string * string) (s : store) : option fact :=
  List.find (fun g => bool_decide (key g = k)) s.

(** The position of a key in the store. *)
Fixpoint position (k : string * string) (s : store) : option nat :=
  match s with
  | [] => None
  | g :: rest =>
      if bool_decide (key g = k) then Some 0 else S <$> position k rest
  end.

End FactStore.

(** ** Link Dispatch/Result Pipeline *)
Module Pipeline.

(** Modelled from the spec: the statuses of a Link (the engine's code is
    not part of [server.py]); [success], [failed] and [discarded] are the
    terminal ones. *)
Inductive status :=
| queued | collected | executing | success | failed | discarded.

Definition terminal (s : status) : bool :=
  match s with
  | success | failed | discarded => true
  | queued | collected | executing => false
  end.

(** Modelled from the spec: the Link [(id, ability-id, paw, rendered
    command, status, decide-time, collect-time, output, parsed-facts)]. *)
Record link := Link {
  id : string;
  ability_id : string;
  paw : string;
  command : string;
  link_status : status;
  decide_time : Z;
  collect_time : option Z;
  output : string;
  parsed_facts : list FactStore.fact
}.

(** Modelled from the spec: the states of the Operation State Machine. *)
Inductive op_state := running | paused | finished | cleanup | out_of_time.

(** Modelled from the spec: the Operation [(id, name, objective traits,
    adversary profile, agent-group filter, state, ordered Link list,
    start-time, autonomous flag)], kept together with its Fact Store. *)
Record operation := Operation {
  op_id : string;
  name : string;
  objective : list string;
  profile : list string;
  group_filter : string;
  state : op_state;
  links : list link;
  start_time : Z;
  autonomous : bool;
  facts : FactStore.store
}.

(** The Operation with a new Link list and Fact Store; nothing else
    changes. *)
Definition with_links_facts (op : operation) (ls : list link)
    (fs : FactStore.store) : operation :=
  {| op_id := op_id op; name := name op; objective := objective op;
     profile := profile op; group_filter := group_filter op;
     state := state op; links := ls; start_time := start_time op;
     autonomous := autonomous op; facts := fs |}.

Inductive ack := Accepted | Rejected.

(** The Link with a given id, if the Operation knows it. *)
Definition lookup_link (lid : string) (ls : list link) : option link :=
  List.find (fun l => bool_decide (id l = lid)) ls.

(** Replaces the Link that [lookup_link] finds. *)
Fixpoint replace_link (l' : link) (ls : list link) : list link :=
  match ls with
  | [] => []
  | l :: rest =>
      if bool_decide (id l = id l') then l' :: rest
      else l :: replace_link l' rest
  end.

(** Modelled from the spec: the terminal status of a Link is set from the
    exit status of the Result. *)
Definition status_of_exit (exit_status : Z) : status :=
  if (exit_status =? 0)%Z then success else failed.

Section Submit.
(** The Ability's parser spec applied to an output: the [(trait, value,
    score)] triples it extracts, [None] when parsing fails. *)
Variable parser : string -> string -> option (list (string * string * Z)).

Definition extract (l : link) (out : string) : list FactStore.fact :=
  match parser (ability_id l) out with
  | Some found =>
      map (fun '(t, v, sc) => FactStore.Fact t v (id l) sc) found
  | None => []
  end.

(** Modelled from the spec: [submit_result(link-id, status, output)].
    Unknown or already terminal Link: rejected, nothing changes.
    Otherwise the output is parsed into Facts with [source = link-id],
    they are added to the Fact Store, and the Link gets its terminal
    status. *)
Definition submit_result (lid : string) (exit_status : Z) (out : string)
    (op : operation) : operation * ack :=
  match lookup_link lid (links op) with
  | None => (op, Rejected)
  | Some l =>
      if terminal (link_status l) then (op, Rejected)
      else
        let found := extract l out in
        let l' := {| id := id l; ability_id := ability_id l;
                     paw := paw l; command := command l;
                     link_status := status_of_exit exit_status;
                     decide_time := decide_time l;
                     collect_time := collect_time l;
                     output := out; parsed_facts := found |} in
        (with_links_facts op (replace_link l' (links op))
           (FactStore.add_all found (facts op)), Accepted)
  end.
End Submit.

End Pipeline.

(** ** Scheduler *)
Module Scheduler.

(** Modelled from the spec: the Schedule [(id, operation template,
    cadence, next-fire-time)] and one Scheduler tick (the code of
    [app_svc.run_scheduler] is not part of [server.py]). Times and the
    cadence are in seconds. *)
Record schedule := Schedule {
  sched_id : string;
  template : string;
  cadence : Z;
  next_fire_time : Z
}.

(** Modelled from the spec: an Operation created from the template of a
    Schedule at a given time. *)
Record new_operation := NewOperation {
  from_schedule : string; op_template : string; start_time : Z
}.

(** Modelled from the spec: a Schedule whose next-fire-time is already
    past is due. *)
Definition due (now : Z) (s : schedule) : bool := (next_fire_time s <? now)%Z.

(** Modelled from the spec: a due Schedule fires once and is rescheduled
    forward to [now + cadence]. *)
Definition fire (now : Z) (s : schedule) : schedule * list new_operation :=
  if due now s then
    ({| sched_id := sched_id s; template := template s;
        cadence := cadence s; next_fire_time := (now + cadence s)%Z |},
     [ {| from_schedule := sched_id s; op_template := template s;
          start_time := now |} ])
  else (s, []).

(** Modelled from the spec: one Scheduler tick over all Schedules. *)
Fixpoint tick (now : Z) (ss : list schedule)
    : list schedule * list new_operation :=
  match ss with
  | [] => ([], [])
  | s :: rest =>
      let '(s', ops) := fire now s in
      let '(rest', ops') := tick now rest in
      (s' :: rest', ops ++ ops')
  end.

End Scheduler.

(** ** Error handling of the engine *)
Module Engine.
Import Pipeline.

(** Modelled from the spec: what the engine surfaces while it goes on, a
    log record or a warning (section 7 of the design; the engine's code is
    not part of [server.py]). *)
Inductive notice :=
| RenderFailure (lid : string)
| ParseFailure (lid : string)
| ResultRejected (lid : string)
| ScheduleSkipped (entry : string)
| LinkDiscarded (lid : string).

(** The Link with another status; nothing else changes. *)
Definition with_status (l : link) (s : status) : link :=
  {| id := id l; ability_id := ability_id l; paw := paw l;
     command := command l; link_status := s;
     decide_time := decide_time l; collect_time := collect_time l;
     output := output l; parsed_facts := parsed_facts l |}.

(** What reaches the engine: a decision of the Planner for an (ability,
    agent) pair, a Result posted by an Agent, a timeout sweep. *)
Inductive input :=
| Decided (lid ability agent : string) (now : Z)
| Posted (lid : string) (exit_status : Z) (out : string)
| Swept (now : Z).


Section Handlers.
(** The executor template of an Ability rendered for an Agent, [None]
    when rendering fails. *)
Variable render : string -> string -> option string.
(** The Ability's parser spec applied to an output, [None] when parsing
    fails. *)
Variable parser : string -> string -> option (list (string * string * Z)).
(** A persisted Schedule entry read at start-up, [None] when the entry
    fails to load. *)
Variable decode : string -> option Scheduler.schedule.
(** [beacon-interval × N], and the timeout of each Ability; seconds. *)
Variable collect_window : Z.
Variable timeout : string -> Z.

(** Modelled from the spec: the Link of a chosen (ability, agent) pair is
    queued with its rendered command; when rendering fails the Link is
    marked [failed], no Fact changes and the Operation continues. *)
Definition dispatch (lid ability agent : string) (now : Z) (op : operation)
    : operation * list notice :=
  match render ability agent with
  | Some cmd =>
      (with_links_facts op
         (links op ++ [Link lid ability agent cmd queued now None "" []])
         (facts op), [])
  | None =>
      (with_links_facts op
         (links op ++ [Link lid ability agent "" failed now None "" []])
         (facts op), [RenderFailure lid])
  end.

(** Modelled from the spec: a Result goes through [submit_result]; a
    Result for an unknown or terminal Link is rejected, an output that
    does not parse is logged, and neither stops the engine. *)
Definition result (lid : string) (exit_status : Z) (out : string)
    (op : operation) : operation * list notice :=
  match submit_result parser lid exit_status out op with
  | (op', Rejected) => (op', [ResultRejected lid])
  | (op', Accepted) =>
      match lookup_link lid (links op) with
      | Some l =>
          match parser (ability_id l) out with
          | Some _ => (op', [])
          | None => (op', [ParseFailure lid])
          end
      | None => (op', [])
      end
  end.

(** Modelled from the spec: a Link not collected within
    [beacon-interval × N], or collected but not resulted within the
    Ability's timeout, is overdue. *)
Definition overdue (now : Z) (l : link) : bool :=
  match link_status l with
  | queued => (decide_time l + collect_window <? now)%Z
  | collected | executing =>
      match collect_time l with
      | Some c => (c + timeout (ability_id l) <? now)%Z
      | None => false
      end
  | success | failed | discarded => false
  end.

Definition expire (now : Z) (l : link) : link :=
  if overdue now l then with_status l discarded else l.

(** Modelled from the spec: the timeout sweep moves every overdue Link to
    [discarded]. *)
Definition sweep (now : Z) (op : operation) : operation * list notice :=
  (with_links_facts op (map (expire now) (links op)) (facts op),
   map (fun l => LinkDiscarded (id l)) (List.filter (overdue now) (links op))).


(** Modelled from the spec: the Schedules are loaded at start-up; an
    entry that fails to load is skipped with a warning and the other
    Schedules proceed. *)
Fixpoint load_schedules (entries : list string)
    : list Scheduler.schedule * list notice :=
  match entries with
  | [] => ([], [])
  | entry :: rest =>
      let '(ss, ns) := load_schedules rest in
      match decode entry with
      | Some s => (s :: ss, ns)
      | None => (ss, ScheduleSkipped entry :: ns)
      end
  end.

Definition handle (i : input) (op : operation) : operation * list notice :=
  match i with
  | Decided lid ability agent now => dispatch lid ability agent now op
  | Posted lid exit_status out => result lid exit_status out op
  | Swept now => sweep now op
  end.

(** The inputs are handled one after the other, the first one first. *)
Fixpoint run (inputs : list input) (op : operation)
    : operation * list notice :=
  match inputs with
  | [] => (op, [])
  | i :: rest =>
      let '(op1, ns1) := handle i op in
      let '(op2, ns2) := run rest op1 in
      (op2, ns1 ++ ns2)
  end.
End Handlers.

End Engine.

(** ** Ordering of events in a trace *)
Module Trace.
Import Py.

#[global] Instance exn_eq_dec : EqDecision exn.
Proof. solve_decision. Defined.
#[global] Instance log_record_eq_dec : EqDecision log_record.
Proof. solve_decision. Defined.
#[global] Instance event_eq_dec : EqDecision event.
Proof. solve_decision. Defined.

(** Every occurrence of [b] comes after an occurrence of [a]. *)
Definition always_before (a b : event) (t : list event) : Prop :=
  forall l1 l2, t = l1 ++ b :: l2 -> a ∈ l1.

(** The same as a check that runs along the trace; [seen] tells whether
    [a] has occurred so far. *)
Fixpoint guarded (a b : event) (seen : bool) (t : list event) : bool :=
  match t with
  | [] => true
  | x :: rest =>
      (if bool_decide (x = b) then seen else true)
      && guarded a b (seen || bool_decide (x = a)) rest
  end.

(** The events of one coroutine. *)
Definition of_coro (c : coro) (e : event) : bool :=
  bool_decide (e = Created c) || bool_decide (e = Started c)
  || bool_decide (e = Completed c).

End Trace.

(** ** Machines used in the examples *)
Module Fixtures.
Import Py.

Definition shell_with (python go : Z * string) : string -> Z * string :=
  fun cmd =>
    if String.eqb cmd "python --version" then python
    else if String.eqb cmd "go version" then go
    else (127%Z, "sh: 1: " +:+ cmd +:+ ": not found").

Definition machine (python go : Z * string) : world :=
  {| getstatusoutput := shell_with python go;
     constructs := fun _ => true;
     completes := fun _ => true;
     reached := fun _ => 0;
     interrupted := false |}.

Definition healthy : world :=
  machine (0%Z, "Python 3.8.10") (0%Z, "go version go1.15.2 linux/amd64").

Definition old_python : world :=
  machine (0%Z, "Python 3.5.2") (0%Z, "go version go1.15.2 linux/amd64").

Definition go_at_minimum : world :=
  machine (0%Z, "Python 3.8.10") (0%Z, "go version go1.11 linux/amd64").

Definition no_go : world :=
  machine (0%Z, "Python 3.8.10") (127%Z, "sh: 1: go: not found").

Definition python_unreadable_go_old : world :=
  machine (0%Z, "python3: Python 3.8.10")
          (0%Z, "go version go1.10 linux/amd64").

(** A configuration directory with the three standard files only; a
    document is represented by the path it was read from. *)
Definition standard_files (path : string) : bool :=
  bool_decide (path ∈ ["conf/default.yml"; "conf/agents.yml";
                       "conf/payloads.yml"]).

Definition with_local (path : string) : bool :=
  bool_decide (path = "conf/local.yml") || standard_files path.

Definition read_yml (exists_ : string -> bool) (path : string)
    : option (list string) :=
  if exists_ path then Some [path] else None.

(** A file system in which the existence test always answers. *)
Definition answers (exists_ : string -> bool) (path : string)
    : option bool :=
  Some (exists_ path).

(** A file system in which a path of more than 255 characters makes the
    existence test raise (errno 36, file name too long). *)
Definition name_limit (exists_ : string -> bool) (path : string)
    : option bool :=
  if (255 <? String.length path)%nat then None else Some (exists_ path).

(** An environment name of 300 letters. *)
Definition long_environment : string :=
  string_of_list_ascii (repeat "a"%char 300).

Definition long_args : Server.arguments :=
  {| Server.environment := long_environment; Server.fresh := false |}.

Definition local_args : Server.arguments :=
  {| Server.environment := "local"; Server.fresh := false |}.

Definition fresh_args : Server.arguments :=
  {| Server.environment := "local"; Server.fresh := true |}.

(** Three [add] calls; the third rewrites the key of the first. *)
Definition host_fact : FactStore.fact :=
  FactStore.Fact "host.user.name" "alice" "link-1" 1.
Definition file_fact : FactStore.fact :=
  FactStore.Fact "host.file.path" "/etc/passwd" "link-1" 1.
Definition host_fact_again : FactStore.fact :=
  FactStore.Fact "host.user.name" "alice" "link-2" 5.

(** An Operation with one finished Link and one Link still out. *)
Definition done_link : Pipeline.link :=
  Pipeline.Link "link-1" "whoami" "paw-1" "whoami" Pipeline.success 10
    (Some 12%Z) "alice" [host_fact].
Definition open_link : Pipeline.link :=
  Pipeline.Link "link-2" "find-files" "paw-1" "ls /etc" Pipeline.collected 20
    (Some 22%Z) "" [].
Definition sample_operation : Pipeline.operation :=
  Pipeline.Operation "op-1" "discovery" ["host.file.path"]
    ["whoami"; "find-files"] "red" Pipeline.running [done_link; open_link]
    0 true [host_fact].

(** A parser that reads every output as one file path. *)
Definition path_parser (ability out : string)
    : option (list (string * string * Z)) :=
  if String.eqb out "" then None else Some [("host.file.path", out, 1%Z)].

(** A renderer that knows the templates of one Agent only. *)
Definition render_for_paw_1 (ability agent : string) : option string :=
  if String.eqb agent "paw-1" then Some ("sh -c " +:+ ability) else None.

(** A Link that was queued at time 30 and never collected. *)
Definition stale_link : Pipeline.link :=
  Pipeline.Link "link-3" "whoami" "paw-2" "whoami" Pipeline.queued 30
    None "" [].

(** The schedule of the catch-up scenario: a cadence of one hour, due
    three hours ago when the clock shows 20000 seconds. *)
Definition hourly : Scheduler.schedule :=
  Scheduler.Schedule "nightly" "discovery" 3600 9200.

(** Persisted entries of which only ["nightly"] loads. *)
Definition decode_nightly (entry : string) : option Scheduler.schedule :=
  if String.eqb entry "nightly" then Some hourly else None.

End Fixtures.

(** ** [setup_logger] *)
Module Logging.

(** An entry of [logging.root.manager.loggerDict]: a placeholder for a
    name that only occurs as an ancestor, or a logger with its level. *)
Inductive entry := PlaceHolder | Logger (level : Z).

(** The part of the [logging] module that [setup_logger] works on. *)
Record state := State {
  root_level : Z;
  root_handlers : nat;
  loggerDict : gmap string entry
}.

Definition DEBUG : Z := 10.
Definition CRITICAL : Z := 50.

(** [logging.basicConfig(level=logging.DEBUG, ...)]: a root logger that
    already has a handler is left alone; otherwise it gets one handler and
    the level. *)
Definition basicConfig (st : state) : state :=
  match root_handlers st with
  | O => {| root_level := DEBUG; root_handlers := 1;
            loggerDict := loggerDict st |}
  | S _ => st
  end.

(** [logger_name in ('aiohttp.server', 'asyncio')] *)
Definition kept (logger_name : string) : bool :=
  bool_decide (logger_name ∈ ["aiohttp.server"; "asyncio"]).

(** [logging.getLogger(name).setLevel(level)] for a name of the
    dictionary: a placeholder is replaced by a logger. *)
Definition set_level (logger_name : string) (level : Z)
    (d : gmap string entry) : gmap string entry :=
  <[logger_name := Logger level]> d.

(** The [for] loop over the names of the dictionary. *)
Definition silence (names d : gmap string entry) : gmap string entry :=
  map_fold (fun logger_name _ acc =>
              if kept logger_name then acc else set_level logger_name 100 acc)
           d names.

Definition setup_logger (st : state) : state :=
  let st1 := basicConfig st in
  {| root_level := root_level st1; root_handlers := root_handlers st1;
     loggerDict := silence (loggerDict st1) (loggerDict st1) |}.

(** [Logger.isEnabledFor] for a logger with a level of its own (not
    [NOTSET]) and no [logging.disable]: the record's level is at least the
    logger's. *)
Definition enabled_for (e : entry) (level : Z) : option bool :=
  match e with
  | Logger own => if (own =? 0)%Z then None else Some (own <=? level)%Z
  | PlaceHolder => None
  end.

End Logging.

(** ** The full boot sequence *)
Module Boot.
Import Py.

(** The events of a run of [run_tasks] in which every service completes
    and Ctrl-C ends [run_forever]. *)
Definition boot_sequence : list event :=
  [Created build_docs; Created restore_state; Started build_docs;
   Started restore_state; Completed restore_state;
   Created rest_api_enable; Started rest_api_enable;
   Completed rest_api_enable;
   Created register_contacts; Started register_contacts;
   Completed register_contacts;
   Created load_plugins; Started load_plugins; Completed load_plugins;
   Created load_data; Started load_data; Completed load_data;
   Created start_sniffer_untrusted_agents; Created resume_operations;
   Created run_scheduler; Created build_model; Created start_server;
   Started start_sniffer_untrusted_agents; Started resume_operations;
   Started run_scheduler; Started build_model; Started start_server;
   AuthApply; AddStatic "/docs/" "docs/_build/html"; RunnerSetup;
   TCPSiteStart "0.0.0.0"; Completed start_server;
   Log (LogInfo Server.all_systems_ready); RunForever;
   Created teardown; Started teardown; Completed teardown].

(** The events of [data_svc.destroy()] run to its end. *)
Definition destroy_events : list event :=
  [Created destroy; Started destroy; Completed destroy].

(** An event that the boot sequence itself does not contain: a record of
    the environment check or an event of [destroy]. *)
Definition before_boot (e : event) : bool :=
  match e with
  | Log (LogError _) | Log (LogDebug _) => true
  | _ => Trace.of_coro destroy e
  end.

(** How a run ended. *)
Definition is_serving {A : Type} (o : outcome A) : bool :=
  match o with Serving => true | _ => false end.

Definition is_normal {A : Type} (o : outcome A) : bool :=
  match o with Normal _ => true | _ => false end.

Definition failed_service {A : Type} (o : outcome A) : option coro :=
  match o with Raised (ServiceError c) => Some c | _ => None end.

Definition failed_constructor {A : Type} (o : outcome A) : option service :=
  match o with Raised (ConstructorError s) => Some s | _ => None end.

(** The coroutines handed to the loop, in the order of their creation. *)
Definition created_tasks (t : list event) : list coro :=
  omap (fun e => match e with Created c => Some c | _ => None end) t.

(** The two entries of [versions]. *)
Definition python_probe : Validate.probe :=
  ("python", ("python --version", Regex.Pattern "", "3.6.1")).

Definition go_probe : Validate.probe :=
  ("go", ("go version", Regex.Pattern "go", "1.11")).

(** A machine with go 1.9.7, and one with go 1.11.1. *)
Definition go_1_9 : world :=
  Fixtures.machine (0%Z, "Python 3.8.10")
    (0%Z, "go version go1.9.7 linux/amd64").

Definition go_1_11_1 : world :=
  Fixtures.machine (0%Z, "Python 3.8.10")
    (0%Z, "go version go1.11.1 linux/amd64").

(** A machine with python 3.5.2 and no go at all. *)
Definition old_python_no_go : world :=
  Fixtures.machine (0%Z, "Python 3.5.2") (127%Z, "sh: 1: go: not found").


(** A configuration directory without [conf/agents.yml]. *)
Definition no_agents (path : string) : bool :=
  bool_decide (path ∈ ["conf/default.yml"; "conf/payloads.yml"]).

(** Loggers as they are once [aiohttp] is imported. *)
Definition sample_loggers : Logging.state :=
  {| Logging.root_level := 30; Logging.root_handlers := 0;
     Logging.loggerDict :=
       <["aiohttp" := Logging.PlaceHolder]>
         (<["aiohttp.server" := Logging.Logger 0]>
            (<["aiohttp.access" := Logging.Logger 0]>
               (<["asyncio" := Logging.Logger 0]> ∅))) |}.

(** The coroutines that [run_tasks] waits for before it starts the
    listener, and the ones it only queues. *)
Definition awaited : list coro :=
  [restore_state; rest_api_enable; register_contacts; load_plugins;
   load_data].

Definition background : list coro :=
  [start_sniffer_untrusted_agents; resume_operations; run_scheduler;
   build_model].

(** The configuration files that lines 98-101 read, given the answer of
    the existence test for the file of the environment. *)
Definition config_files (found : bool) (args : Server.arguments)
    : list string :=
  ["conf/" +:+ (if found then Server.environment args else "default")
   +:+ ".yml";
   "conf/agents.yml"; "conf/payloads.yml"].

(** The existence test for the file of the environment answers, and the
    three files that are then read each hold a document. *)
Definition configured {yml : Type} (path_exists : string -> option bool)
    (strip_yml : string -> option (list yml)) (args : Server.arguments)
    : Prop :=
  exists found,
    path_exists ("conf/" +:+ Server.environment args +:+ ".yml")
    = Some found /\
    Forall (Server.loadable strip_yml) (config_files found args).

(** Everything before [destroy] and [run_tasks] goes well: the
    environment check does not exit, the command line parses, the
    configuration loads and every service is constructed. *)
Definition ready_to_boot {yml : Type} (w : world)
    (path_exists : string -> option bool)
    (strip_yml : string -> option (list yml)) (cmd : Server.command_line)
    : Prop :=
  (Validate.validate_environment w initial).2 <> Exited 1%Z /\
  exists args,
    cmd = Server.Parsed args /\
    configured path_exists strip_yml args /\
    forall s, constructs w s = true.

End Boot.

(** * Properties *)

Section ValidateFacts.
Import Py Validate.
Variable w : world.

Lemma check_unfold (exe cmd min_version : string) (pat : Regex.pattern) (p : process) :
  check w (exe, (cmd, pat, min_version)) p =
  if ((getstatusoutput w cmd).1 =? 0)%Z then
    match Regex.search pat (getstatusoutput w cmd).2 with
    | None => (p, Raised AttributeError)
    | Some version =>
        match StrictVersion.parse version with
        | None => (p, Raised (ValueError version))
        | Some v =>
            match StrictVersion.parse min_version with
            | None => (p, Raised (ValueError min_version))
            | Some m =>
                if StrictVersion.le v m then
                  ({| ready := ready p;
                      trace := (trace p
                        ++ [Log (LogError (below_minimum_msg exe version min_version))])
                        ++ [Log (LogError exiting_msg)] |}, Exited 1%Z)
                else (p, Normal tt)
            end
        end
    end
  else (p, Normal tt).
Proof.
  unfold check. destruct (getstatusoutput w cmd) as [failed out]; simpl.
  destruct (failed =? 0)%Z; [|reflexivity].
  unfold mbind, M_bind, bind, group1, strict_version.
  destruct (Regex.search pat out) as [version|]; simpl; [|reflexivity].
  destruct (StrictVersion.parse version) as [v|]; simpl; [|reflexivity].
  destruct (StrictVersion.parse min_version) as [m|]; simpl; [|reflexivity].
  destruct (StrictVersion.le v m); reflexivity.
Qed.

Lemma check_accepted item p : accepted w item -> check w item p = (p, Normal tt).
Proof.
  destruct item as [exe [[cmd pat] mn]]. rewrite check_unfold.
  unfold accepted, status_of, output_of, pattern_of, minimum_of; simpl.
  intros [Hs | (version & v & m & Hre & Hv & Hm & Hle)].
  - apply Z.eqb_neq in Hs. rewrite Hs. reflexivity.
  - rewrite Hre, Hv, Hm, Hle. destruct (_ =? _)%Z; reflexivity.
Qed.

Lemma check_rejected item p :
  rejected w item ->
  exists version,
    Regex.search (pattern_of item) (output_of w item) = Some version /\
    check w item p =
    ({| ready := ready p;
        trace := trace p
          ++ [Log (LogError (below_minimum_msg item.1 version (minimum_of item)));
              Log (LogError exiting_msg)] |}, Exited 1%Z).
Proof.
  destruct item as [exe [[cmd pat] mn]]. rewrite check_unfold.
  unfold rejected, status_of, output_of, pattern_of, minimum_of; simpl.
  intros (Hs & version & v & m & Hre & Hv & Hm & Hle).
  exists version. split; [assumption|].
  rewrite Hs, Hre, Hv, Hm, Hle. simpl. rewrite <- app_assoc. reflexivity.
Qed.

Lemma check_unreadable item e p :
  unreadable w item e -> check w item p = (p, Raised e).
Proof.
  destruct item as [exe [[cmd pat] mn]]. rewrite check_unfold.
  unfold unreadable, status_of, output_of, pattern_of, minimum_of; simpl.
  intros (Hs & H). rewrite Hs. simpl.
  destruct (Regex.search pat _) as [version|]; [|congruence].
  destruct (StrictVersion.parse version) as [v|]; [|congruence].
  destruct H as [Hm ->]. rewrite Hm. reflexivity.
Qed.

Lemma unreadable_is_exception item e : unreadable w item e -> is_exception e = true.
Proof.
  unfold unreadable. intros [_ H].
  destruct (Regex.search _ _); [|subst; reflexivity].
  destruct (StrictVersion.parse _); [|subst; reflexivity].
  destruct H as [_ ->]. reflexivity.
Qed.

Lemma probe_cases item :
  accepted w item \/ rejected w item \/ exists e, unreadable w item e.
Proof.
  unfold accepted, rejected, unreadable.
  destruct (Z.eq_dec (status_of w item) 0%Z) as [Hs|Hs]; [|left; left; assumption].
  destruct (Regex.search (pattern_of item) (output_of w item)) as [version|] eqn:Hre;
    [|right; right; eauto].
  destruct (StrictVersion.parse version) as [v|] eqn:Hv; [|right; right; eauto].
  destruct (StrictVersion.parse (minimum_of item)) as [m|] eqn:Hm;
    [|right; right; eauto].
  destruct (StrictVersion.le v m) eqn:Hle.
  - right; left. split; [assumption|]. exists version, v, m. auto.
  - left; right. exists version, v, m. auto.
Qed.

Lemma first_verdict (l : list probe) :
  Forall (accepted w) l \/
  exists item, first_not_accepted w l item /\
               (rejected w item \/ exists e, unreadable w item e).
Proof.
  induction l as [|item l IH]; [left; constructor|].
  destruct (probe_cases item) as [Ha | Hn].
  - destruct IH as [IH | (it & (before & after & -> & Hb) & Hit)].
    + left. constructor; assumption.
    + right. exists it. split; [|assumption].
      exists (item :: before), after. split; [reflexivity|]. constructor; assumption.
  - right. exists item. split; [|assumption].
    exists [], l. split; [reflexivity | constructor].
Qed.

Lemma for_each_accepted (l : list probe) p :
  Forall (accepted w) l -> for_each (check w) l p = (p, Normal tt).
Proof.
  induction 1 as [|item l Ha _ IH]; [reflexivity|].
  simpl. unfold mbind, M_bind, bind. rewrite check_accepted by assumption. exact IH.
Qed.

Lemma for_each_stops (l : list probe) item p :
  first_not_accepted w l item ->
  forall r, check w item p = r -> (forall a, r.2 <> Normal a) ->
  for_each (check w) l p = r.
Proof.
  intros (before & after & -> & Hb) r Hc Hr.
  induction Hb as [|x before Hx _ IH]; simpl; unfold mbind, M_bind, bind.
  - rewrite Hc. destruct r as [p' [a|e|c|]]; try reflexivity.
    exfalso. exact (Hr a eq_refl).
  - rewrite check_accepted by assumption. exact IH.
Qed.
End ValidateFacts.

Section ValidateOutcome.
Import Py Validate.
Variable w : world.

Lemma validate_all_accepted p :
  Forall (accepted w) versions -> validate_environment w p = (p, Normal true).
Proof.
  intros H. unfold validate_environment, try_except, mbind, M_bind, bind.
  rewrite for_each_accepted by assumption. reflexivity.
Qed.

Lemma validate_rejected item p :
  first_not_accepted w versions item -> rejected w item ->
  exists version,
    Regex.search (pattern_of item) (output_of w item) = Some version /\
    validate_environment w p =
    ({| ready := ready p;
        trace := trace p
          ++ [Log (LogError (below_minimum_msg item.1 version (minimum_of item)));
              Log (LogError exiting_msg)] |}, Exited 1%Z).
Proof.
  intros Hf Hr. destruct (check_rejected w item p Hr) as (version & Hre & Hc).
  exists version. split; [assumption|].
  unfold validate_environment, try_except, mbind, M_bind, bind.
  rewrite (for_each_stops w versions item p Hf _ Hc) by (simpl; congruence).
  reflexivity.
Qed.

Lemma validate_unreadable item e p :
  first_not_accepted w versions item -> unreadable w item e ->
  validate_environment w p =
  ({| ready := ready p; trace := trace p ++ [Log (LogDebug e)] |}, Normal false).
Proof.
  intros Hf Hu. pose proof (check_unreadable w item e p Hu) as Hc.
  unfold validate_environment, try_except, mbind, M_bind, bind.
  rewrite (for_each_stops w versions item p Hf _ Hc) by (simpl; congruence).
  rewrite (unreadable_is_exception w item e Hu). reflexivity.
Qed.
End ValidateOutcome.

Import Py Validate.


Section TraceFacts.
Import Py Trace.

Lemma guarded_sound (a b : event) (t : list event) :
  forall seen, guarded a b seen t = true ->
  forall l1 l2, t = l1 ++ b :: l2 -> seen = true \/ a ∈ l1.
Proof.
  induction t as [|x rest IH]; intros seen Hg l1 l2 Heq.
  - destruct l1; discriminate.
  - simpl in Hg. apply andb_true_iff in Hg as [Hx Hrest].
    destruct l1 as [|y l1].
    + injection Heq as -> _. rewrite bool_decide_eq_true_2 in Hx by reflexivity.
      left. exact Hx.
    + injection Heq as -> Hr.
      destruct (IH _ Hrest l1 l2 Hr) as [Hs | Hin].
      * apply orb_true_iff in Hs as [Hs | Hs]; [left; exact Hs|].
        right. apply bool_decide_eq_true_1 in Hs. subst. left.
      * right. right. exact Hin.
Qed.

Lemma guarded_always_before (a b : event) (t : list event) :
  guarded a b false t = true -> always_before a b t.
Proof.
  intros Hg l1 l2 Heq.
  destruct (guarded_sound a b t false Hg l1 l2 Heq) as [Hf | Hin];
    [discriminate | exact Hin].
Qed.
End TraceFacts.

Section ShapeFacts.
Import Py Trace.

Lemma always_before_prefix (a b : event) (t l : list event) :
  t `prefix_of` l -> always_before a b l -> always_before a b t.
Proof.
  intros [k ->] H l1 l2 Heq. apply (H l1 (l2 ++ k)).
  rewrite Heq, <- app_assoc. reflexivity.
Qed.

Lemma always_before_app (a b : event) (xs l : list event) :
  b ∉ xs -> always_before a b l -> always_before a b (xs ++ l).
Proof.
  intros Hb H. induction xs as [|x xs IH]; [exact H|].
  apply not_elem_of_cons in Hb as [Hne Hb].
  intros l1 l2 Heq. destruct l1 as [|y l1]; simpl in Heq.
  - injection Heq as -> _. congruence.
  - injection Heq as -> Heq. right. apply (IH Hb l1 l2 Heq).
Qed.

Lemma elem_of_existsb (e : event) (t : list event) :
  e ∈ t <-> existsb (fun x => bool_decide (x = e)) t = true.
Proof.
  rewrite list_elem_of_In, existsb_exists. split.
  - intros H. exists e. split; [exact H | apply bool_decide_eq_true_2; reflexivity].
  - intros (x & Hx & Heq). apply bool_decide_eq_true_1 in Heq. subst. exact Hx.
Qed.
End ShapeFacts.

Section ValidateFrame.
Import Py Validate.
Variable w : world.

(** What the environment check leaves behind, in its three courses. *)
Lemma validate_courses (p : process) :
  validate_environment w p = (p, Normal true) \/
  (exists m1 m2,
     validate_environment w p
     = ({| ready := ready p;
           trace := trace p ++ [Log (LogError m1); Log (LogError m2)] |},
        Exited 1%Z)) \/
  (exists e,
     validate_environment w p
     = ({| ready := ready p; trace := trace p ++ [Log (LogDebug e)] |},
        Normal false)).
Proof.
  destruct (first_verdict w versions) as [Hall | (item & Hf & [Hr | [e Hu]])].
  - left. apply validate_all_accepted. assumption.
  - right; left.
    destruct (validate_rejected w item p Hf Hr) as (version & _ & Hv).
    eexists _, _. exact Hv.
  - right; right. exists e. apply (validate_unreadable w item e p Hf Hu).
Qed.
End ValidateFrame.

Section CourseFacts.
Import Py Trace Validate Server.
Context {yml : Type}.
Variable path_exists : string -> option bool.
Variable strip_yml : string -> option (list yml).
Variable args : arguments.

Lemma conf_path_spelled (name : string) :
  conf_path name = "conf/" +:+ name +:+ ".yml".
Proof. reflexivity. Qed.

Lemma first_document_cases (path : string) (p : process) :
  (loadable strip_yml path /\
   exists d, first_document strip_yml path p = (p, Normal d)) \/
  (~ loadable strip_yml path /\
   exists e, first_document strip_yml path p = (p, Raised e) /\
             (e = OSError path \/ e = IndexError)).
Proof.
  unfold loadable, first_document.
  destruct (strip_yml path) as [[|d rest]|].
  - right. split; [intros (d & r & H); discriminate|].
    exists IndexError. auto.
  - left. split; [exists d, rest; reflexivity | exists d; reflexivity].
  - right. split; [intros (d & r & H); discriminate|].
    exists (OSError path). auto.
Qed.

(** The three files, once the existence test has answered. *)
Lemma read_files_cases (found : bool) (p : process) :
  let read :=
    d ← first_document strip_yml
          (conf_path (if found then environment args else "default"));
    a ← first_document strip_yml "conf/agents.yml";
    pl ← first_document strip_yml "conf/payloads.yml";
    mret (apply_config "payloads" pl
            (apply_config "agents" a (apply_config "default" d ∅))) in
  (Forall (loadable strip_yml) (Boot.config_files found args) /\
   exists store, read p = (p, Normal store)) \/
  (~ Forall (loadable strip_yml) (Boot.config_files found args) /\
   exists e path,
     read p = (p, Raised e) /\
     (e = OSError path \/ e = IndexError) /\
     exists before after,
       Boot.config_files found args = before ++ path :: after /\
       Forall (loadable strip_yml) before /\
       ~ loadable strip_yml path).
Proof.
  cbv zeta. unfold Boot.config_files, mbind, M_bind, bind.
  rewrite conf_path_spelled.
  set (chosen := "conf/" +:+ _ +:+ ".yml").
  destruct (first_document_cases chosen p)
    as [(Hc & d & ->) | (Hc & e & -> & He)].
  2:{ right. split.
      - intros H. apply Forall_cons in H as [H _]. contradiction.
      - exists e, chosen. split; [reflexivity|]. split; [exact He|].
        exists [], ["conf/agents.yml"; "conf/payloads.yml"].
        repeat split; [constructor | exact Hc]. }
  destruct (first_document_cases "conf/agents.yml" p)
    as [(Ha & a & ->) | (Ha & e & -> & He)].
  2:{ right. split.
      - intros H. apply Forall_cons in H as [_ H].
        apply Forall_cons in H as [H _]. contradiction.
      - exists e, "conf/agents.yml". split; [reflexivity|]. split; [exact He|].
        exists [chosen], ["conf/payloads.yml"].
        repeat split; [repeat constructor; exact Hc | exact Ha]. }
  destruct (first_document_cases "conf/payloads.yml" p)
    as [(Hp & pl & ->) | (Hp & e & -> & He)].
  2:{ right. split.
      - intros H. apply Forall_cons in H as [_ H].
        apply Forall_cons in H as [_ H].
        apply Forall_cons in H as [H _]. contradiction.
      - exists e, "conf/payloads.yml". split; [reflexivity|]. split; [exact He|].
        exists [chosen; "conf/agents.yml"], [].
        repeat split; [repeat constructor; assumption | exact Hp]. }
  left. split; [repeat constructor; assumption|].
  eexists. reflexivity.
Qed.

(** Reading the configuration succeeds exactly when the existence test
    answers and each of the three files holds a document. *)
Lemma load_configuration_cases (p : process) :
  (Boot.configured path_exists strip_yml args /\
   exists store,
     load_configuration path_exists strip_yml args p = (p, Normal store)) \/
  (~ Boot.configured path_exists strip_yml args /\
   exists e path,
     load_configuration path_exists strip_yml args p = (p, Raised e) /\
     (e = OSError path \/ e = IndexError)).
Proof.
  unfold Boot.configured, load_configuration, exists_.
  rewrite conf_path_spelled.
  destruct (path_exists ("conf/" +:+ environment args +:+ ".yml"))
    as [found|] eqn:Hfound.
  - destruct (read_files_cases found p)
      as [(Hall & store & Hr) | (Hall & e & path & Hr & He & _)].
    + left. split; [exists found; split; [reflexivity | exact Hall]|].
      exists store. exact Hr.
    + right. split.
      * intros (found' & [= <-] & H). contradiction.
      * exists e, path. split; [exact Hr | exact He].
  - right. split.
    + intros (found' & [=] & _).
    + eexists _, _. split; [reflexivity|]. left. reflexivity.
Qed.

(** Reading the configuration leaves the process as it is. *)
Lemma load_configuration_process (p : process) :
  (load_configuration path_exists strip_yml args p).1 = p.
Proof.
  destruct (load_configuration_cases p)
    as [(_ & store & ->) | (_ & e & path & -> & _)]; reflexivity.
Qed.
End CourseFacts.

(** All courses of a run of [main]: the outcome of the environment check,
    of the command line, of reading the configuration, of each
    constructor and of each service coroutine; every course has a closed
    trace. *)
Ltac main_courses w pe sy cmd :=
  unfold Server.main, mbind, Py.M_bind, Py.bind;
  let Hv := fresh "Hv" in
  destruct (validate_courses w Py.initial)
    as [Hv | [(?m1 & ?m2 & Hv) | (?e & Hv)]];
  rewrite Hv; simpl;
  try (lazymatch cmd with
       | Server.Parsed _ => idtac
       | _ => destruct cmd as [?args| |]
       end; simpl);
  try (let Hl := fresh "Hl" in
       let Hcfg := fresh "Hcfg" in
       match goal with
       | |- context [Server.load_configuration pe sy ?a ?p] =>
           destruct (load_configuration_cases pe sy a p)
             as [(Hcfg & ?store & Hl) | (Hcfg & ?e & ?path & Hl & ?)];
           rewrite Hl; simpl
       end);
  unfold Server.construct; simpl;
  let build := fun s =>
    try (match goal with
         | |- context [Py.constructs w s] =>
             destruct (Py.constructs w s) eqn:?; simpl
         end) in
  build Py.data_svc; build Py.contact_svc; build Py.planning_svc;
  build Py.rest_svc; build Py.auth_svc; build Py.file_svc;
  build Py.learning_svc; build Py.app_svc;
  try (match goal with
       | |- context [Server.fresh ?a] => destruct (Server.fresh a) eqn:?; simpl
       end);
  unfold Server.run_tasks, Py.run_until_complete, Py.run_until_done,
    Py.run_forever, Py.try_except_interrupt, Py.create_task, Py.log, Py.emit,
    mbind, Py.M_bind, Py.bind, mret, Py.M_ret, Py.ret;
  simpl;
  let step := fun c =>
    try (match goal with
         | |- context [Py.completes w c] =>
             destruct (Py.completes w c) eqn:?; simpl
         end) in
  step Py.destroy; step Py.restore_state; step Py.rest_api_enable;
  step Py.register_contacts; step Py.load_plugins; step Py.load_data;
  step Py.start_server;
  repeat match goal with
  | |- context [Py.reached w ?c] =>
      destruct (Py.reached w c) as [|[|[|?]]]; simpl
  | |- context [Py.interrupted w] => destruct (Py.interrupted w) eqn:?; simpl
  | |- context [Py.completes w ?c] => destruct (Py.completes w c) eqn:?; simpl
  end.

Ltac trace_check :=
  first [ apply guarded_always_before; vm_compute; reflexivity
        | apply list_elem_of_In; simpl;
          repeat (first [left; reflexivity | right])
        | repeat constructor ].

Ltac membership := rewrite ?elem_of_existsb; vm_compute.

(** Every run of [main]: the records of the environment check, then the
    events of [destroy] when [--fresh] is given, then the boot sequence,
    cut where a service raises or where the loop keeps running. *)
Lemma main_trace_split {yml : Type} (w : Py.world)
    (path_exists : string -> option bool)
    (strip_yml : string -> option (list yml)) (cmd : Server.command_line) :
  exists pre new,
    Py.trace (Server.main w path_exists strip_yml cmd Py.initial).1
    = pre ++ new /\
    Forall (fun e => Boot.before_boot e = true) pre /\
    new `prefix_of` Boot.boot_sequence.
Proof.
  main_courses w path_exists strip_yml cmd.
  all: (exists [] + eexists [_] + eexists [_; _] + eexists [_; _; _]
        + eexists [_; _; _; _] + eexists [_; _; _; _; _]);
       eexists; split; [reflexivity|];
       split; [repeat constructor | eexists; reflexivity].
Qed.

(** An order that holds in the boot sequence holds in every run. *)
Lemma main_always_before {yml : Type} (w : Py.world)
    (path_exists : string -> option bool)
    (strip_yml : string -> option (list yml)) (cmd : Server.command_line)
    (a b : Py.event) :
  Boot.before_boot b = false ->
  Trace.guarded a b false Boot.boot_sequence = true ->
  Trace.always_before a b
    (Py.trace (Server.main w path_exists strip_yml cmd Py.initial).1).
Proof.
  intros Hb Hg.
  destruct (main_trace_split w path_exists strip_yml cmd)
    as (pre & new & -> & Hpre & Hnew).
  apply always_before_app.
  - intros Hin. rewrite Forall_forall in Hpre.
    specialize (Hpre b Hin). congruence.
  - apply (always_before_prefix a b new Boot.boot_sequence Hnew).
    apply guarded_always_before. exact Hg.
Qed.

Ltac sequence_order_check := apply main_always_before; vm_compute; reflexivity.

(** Closes a course that the assumptions of a run rule out. *)
Ltac ruled_out :=
  exfalso;
  match goal with
  | Hv : Validate.validate_environment _ _ = (_, Py.Exited _),
    Hne : (Validate.validate_environment _ _).2 <> _ |- _ =>
      rewrite Hv in Hne; exact (Hne eq_refl)
  | Hn : ~ Boot.configured _ _ _, Hc : Boot.configured _ _ _ |- _ =>
      exact (Hn Hc)
  | H : Py.constructs _ _ = false,
    Hcons : forall s, Py.constructs _ s = true |- _ =>
      rewrite Hcons in H; discriminate H
  | H : Py.completes _ _ = false,
    Hall : forall c, Py.completes _ c = true |- _ =>
      rewrite Hall in H; discriminate H
  | H : Py.completes ?w ?c = false, H' : Py.completes ?w ?c = true |- _ =>
      rewrite H' in H; discriminate H
  | H : Server.fresh ?a = false, H' : Server.fresh ?a = true |- _ =>
      rewrite H' in H; discriminate H
  | H : Server.fresh ?a = true, H' : Server.fresh ?a = false |- _ =>
      rewrite H' in H; discriminate H
  | H : true = false |- _ => discriminate H
  | H : false = true |- _ => discriminate H
  end.

(** C7: in every run of [main], every creation of the [load_plugins]
    task comes after [restore_state] has completed, every creation of the
    [run_scheduler] task comes after [load_plugins] has completed, the
    scheduler task gets its first step only after it was created, and the
    listener ([TCPSite.start] in [start_server]) starts only after the
    scheduler task had its first step. When the environment check does not
    exit, the command line parses, the configuration files load, the
    services are constructed and their coroutines complete, the listener
    does start. *)
Theorem boot_order {yml : Type} (w : Py.world)
    (path_exists : string -> option bool)
    (strip_yml : string -> option (list yml)) (cmd : Server.command_line) :
  let t := Py.trace (Server.main w path_exists strip_yml cmd Py.initial).1 in
  Trace.always_before (Py.Completed Py.restore_state)
    (Py.Created Py.load_plugins) t /\
  Trace.always_before (Py.Completed Py.load_plugins)
    (Py.Created Py.run_scheduler) t /\
  Trace.always_before (Py.Created Py.run_scheduler)
    (Py.Started Py.run_scheduler) t /\
  Trace.always_before (Py.Started Py.run_scheduler)
    (Py.TCPSiteStart "0.0.0.0") t /\
  (Boot.ready_to_boot w path_exists strip_yml cmd ->
   (forall c, Py.completes w c = true) ->
   Py.TCPSiteStart "0.0.0.0" ∈ t).
Proof.
  cbv zeta. split; [|split; [|split; [|split]]];
    try sequence_order_check.
  intros (Hne & args & -> & Hconf & Hcons) Hall.
  main_courses w path_exists strip_yml (Server.Parsed args);
    first [ruled_out | trace_check].
Qed.

(** C10: [data_svc.destroy()] is handed to the loop only when the command
    line parses with [--fresh]; its task is created, then started, then
    completed, and completed only if [destroy] returns. With [--fresh],
    the first action of [run_tasks] (creating the [build_docs] task) and
    the restoring of the persisted state only happen after [destroy] has
    completed, so [run_tasks] begins only when [destroy] has run to its
    end. When start-up gets as far, [destroy] is created and started; if
    it returns, it completes and [run_tasks] begins, if it raises,
    [run_tasks] never begins. Without [--fresh] no event of [destroy]
    ever occurs. *)
Theorem fresh_destroys_before_run_tasks {yml : Type} (w : Py.world)
    (path_exists : string -> option bool)
    (strip_yml : string -> option (list yml)) (cmd : Server.command_line) :
  let t := Py.trace (Server.main w path_exists strip_yml cmd Py.initial).1 in
  (Py.Created Py.destroy ∈ t ->
   exists args, cmd = Server.Parsed args /\ Server.fresh args = true) /\
  ((forall args, cmd = Server.Parsed args -> Server.fresh args = false) ->
   Forall (fun e => Trace.of_coro Py.destroy e = false) t) /\
  Trace.always_before (Py.Created Py.destroy) (Py.Started Py.destroy) t /\
  Trace.always_before (Py.Started Py.destroy) (Py.Completed Py.destroy) t /\
  (Py.Completed Py.destroy ∈ t -> Py.completes w Py.destroy = true) /\
  (forall args, cmd = Server.Parsed args -> Server.fresh args = true ->
   Trace.always_before (Py.Completed Py.destroy)
     (Py.Created Py.build_docs) t /\
   Trace.always_before (Py.Completed Py.destroy)
     (Py.Created Py.restore_state) t /\
   Trace.always_before (Py.Completed Py.destroy)
     (Py.Started Py.restore_state) t /\
   (Py.Created Py.build_docs ∈ t -> Py.completes w Py.destroy = true)) /\
  (forall args, cmd = Server.Parsed args -> Server.fresh args = true ->
   Boot.ready_to_boot w path_exists strip_yml cmd ->
   Py.Created Py.destroy ∈ t /\ Py.Started Py.destroy ∈ t /\
   (Py.completes w Py.destroy = true ->
    Py.Completed Py.destroy ∈ t /\ Py.Created Py.build_docs ∈ t) /\
   (Py.completes w Py.destroy = false -> Py.Created Py.build_docs ∉ t)).
Proof.
  cbv zeta. split; [|split; [|split; [|split; [|split; [|split]]]]].
  - main_courses w path_exists strip_yml cmd; membership;
      first [ solve [intros [=]]
            | intros _; eexists; split; [reflexivity | assumption] ].
  - intros Hnot. main_courses w path_exists strip_yml cmd;
      first [ match goal with
              | H : Server.fresh ?a = true |- _ =>
                  exfalso; rewrite (Hnot a eq_refl) in H; discriminate H
              end
            | repeat constructor ].
  - main_courses w path_exists strip_yml cmd; trace_check.
  - main_courses w path_exists strip_yml cmd; trace_check.
  - main_courses w path_exists strip_yml cmd; membership;
      first [ solve [intros [=]] | intros _; reflexivity ].
  - intros args -> Hf. repeat split.
    + main_courses w path_exists strip_yml (Server.Parsed args);
        first [ruled_out | trace_check].
    + main_courses w path_exists strip_yml (Server.Parsed args);
        first [ruled_out | trace_check].
    + main_courses w path_exists strip_yml (Server.Parsed args);
        first [ruled_out | trace_check].
    + main_courses w path_exists strip_yml (Server.Parsed args); membership;
        first [ solve [intros [=]] | intros _; reflexivity | ruled_out ].
  - intros args -> Hf (Hne & args' & [= <-] & Hconf & Hcons).
    split; [|split; [|split]].
    + main_courses w path_exists strip_yml (Server.Parsed args);
        first [ruled_out | trace_check].
    + main_courses w path_exists strip_yml (Server.Parsed args);
        first [ruled_out | trace_check].
    + intros Hd. split.
      * main_courses w path_exists strip_yml (Server.Parsed args);
          first [ruled_out | trace_check].
      * main_courses w path_exists strip_yml (Server.Parsed args);
          first [ruled_out | trace_check].
    + intros Hd. main_courses w path_exists strip_yml (Server.Parsed args);
        membership; first [ruled_out | solve [intros [=]]].
Qed.
Section ConfigurationFacts.
Import Py Server.
Context {yml : Type}.
Variable path_exists : string -> option bool.
Variable strip_yml : string -> option (list yml).

Lemma first_document_loadable (path : string) (p : process) :
  loadable strip_yml path ->
  exists d, document strip_yml path = Some d /\
            first_document strip_yml path p = (p, Normal d).
Proof.
  intros (d & rest & H). exists d.
  unfold document, first_document. rewrite H. split; reflexivity.
Qed.

Lemma first_document_normal (path : string) (p p' : process) (d : yml) :
  first_document strip_yml path p = (p', Normal d) ->
  document strip_yml path = Some d.
Proof.
  unfold document, first_document.
  destruct (strip_yml path) as [[|d' rest]|]; simpl; try discriminate.
  intros [= _ ->]. reflexivity.
Qed.

(** A run that reads the configuration to its end: the existence test has
    answered, and the store holds the first documents of the three
    files. *)
Lemma load_configuration_normal (args : arguments) (p p' : process)
    (store : gmap string yml) :
  load_configuration path_exists strip_yml args p = (p', Normal store) ->
  exists found,
    path_exists ("conf/" +:+ environment args +:+ ".yml") = Some found /\
    store !! "default"
    = document strip_yml
        ("conf/" +:+ (if found then environment args else "default")
         +:+ ".yml") /\
    store !! "agents" = document strip_yml "conf/agents.yml" /\
    store !! "payloads" = document strip_yml "conf/payloads.yml".
Proof.
  unfold load_configuration, exists_, conf_path, mbind, M_bind, bind.
  destruct (path_exists ("conf/" +:+ environment args +:+ ".yml"))
    as [found|]; simpl; [|discriminate].
  destruct (first_document strip_yml _ p) as [p1 [d| | |]] eqn:Hd;
    try discriminate.
  destruct (first_document strip_yml "conf/agents.yml" p1)
    as [p2 [a| | |]] eqn:Ha; try discriminate.
  destruct (first_document strip_yml "conf/payloads.yml" p2)
    as [p3 [pl| | |]] eqn:Hp; try discriminate.
  intros [= _ <-]. exists found. unfold apply_config.
  rewrite (first_document_normal _ _ _ _ Hd), (first_document_normal _ _ _ _ Ha),
    (first_document_normal _ _ _ _ Hp).
  repeat split.
Qed.

(** The three files hold a document each: the configuration is read. *)
Lemma load_configuration_found (args : arguments) (found : bool)
    (p : process) :
  path_exists ("conf/" +:+ environment args +:+ ".yml") = Some found ->
  loadable strip_yml
    ("conf/" +:+ (if found then environment args else "default")
     +:+ ".yml") ->
  loadable strip_yml "conf/agents.yml" ->
  loadable strip_yml "conf/payloads.yml" ->
  exists store,
    load_configuration path_exists strip_yml args p = (p, Normal store).
Proof.
  intros He Hd Ha Hp.
  unfold load_configuration, exists_, conf_path, mbind, M_bind, bind.
  rewrite He. simpl.
  destruct (first_document_loadable _ p Hd) as (d & _ & ->).
  destruct (first_document_loadable _ p Ha) as (a & _ & ->).
  destruct (first_document_loadable _ p Hp) as (pl & _ & ->).
  eexists. reflexivity.
Qed.
End ConfigurationFacts.

(** C9 (as amended): whenever the configuration is read to its end, the
    ['agents'] and ['payloads'] configurations are the first documents of
    [conf/agents.yml] and [conf/payloads.yml], whatever [E] is. When the
    existence test of [conf/E.yml] answers that there is no such file, the
    ['default'] configuration is the first document of [conf/default.yml]
    and reading succeeds; when it answers that the file exists, the
    ['default'] configuration is the first document of [conf/E.yml]. When
    the existence test itself raises, reading the configuration ends with
    that [OSError] and [conf/default.yml] is never read. *)
Theorem configuration_selection {yml : Type}
    (path_exists : string -> option bool)
    (strip_yml : string -> option (list yml)) (E : string) (fresh : bool)
    (p : Py.process) :
  let args := {| Server.environment := E; Server.fresh := fresh |} in
  let run := Server.load_configuration path_exists strip_yml args p in
  (forall p' store, run = (p', Py.Normal store) ->
   store !! "agents" = Server.document strip_yml "conf/agents.yml" /\
   store !! "payloads" = Server.document strip_yml "conf/payloads.yml") /\
  (Server.loadable strip_yml "conf/agents.yml" ->
   Server.loadable strip_yml "conf/payloads.yml" ->
   (path_exists ("conf/" +:+ E +:+ ".yml") = Some false ->
    Server.loadable strip_yml "conf/default.yml" ->
    exists store,
      run = (p, Py.Normal store) /\
      store !! "default" = Server.document strip_yml "conf/default.yml" /\
      store !! "agents" = Server.document strip_yml "conf/agents.yml" /\
      store !! "payloads" = Server.document strip_yml "conf/payloads.yml") /\
   (path_exists ("conf/" +:+ E +:+ ".yml") = Some true ->
    Server.loadable strip_yml ("conf/" +:+ E +:+ ".yml") ->
    exists store,
      run = (p, Py.Normal store) /\
      store !! "default"
      = Server.document strip_yml ("conf/" +:+ E +:+ ".yml") /\
      store !! "agents" = Server.document strip_yml "conf/agents.yml" /\
      store !! "payloads" = Server.document strip_yml "conf/payloads.yml")) /\
  (path_exists ("conf/" +:+ E +:+ ".yml") = None ->
   run = (p, Py.Raised (Py.OSError ("conf/" +:+ E +:+ ".yml")))).
Proof.
  cbv zeta. split; [|split].
  - intros p' store Hs.
    destruct (load_configuration_normal _ _ _ _ _ _ Hs)
      as (found & _ & _ & Ha & Hp).
    split; assumption.
  - intros Ha Hp. split; intros He Hd.
    + destruct (load_configuration_found path_exists strip_yml
                  {| Server.environment := E; Server.fresh := fresh |}
                  false p He Hd Ha Hp) as [store Hs].
      exists store. split; [exact Hs|].
      destruct (load_configuration_normal _ _ _ _ _ _ Hs)
        as (found & Hf & H).
      simpl in Hf. rewrite He in Hf. injection Hf as <-. exact H.
    + destruct (load_configuration_found path_exists strip_yml
                  {| Server.environment := E; Server.fresh := fresh |}
                  true p He Hd Ha Hp) as [store Hs].
      exists store. split; [exact Hs|].
      destruct (load_configuration_normal _ _ _ _ _ _ Hs)
        as (found & Hf & H).
      simpl in Hf. rewrite He in Hf. injection Hf as <-. exact H.
  - intros He.
    unfold Server.load_configuration, Server.exists_, Server.conf_path,
      mbind, Py.M_bind, Py.bind.
    simpl. rewrite He. reflexivity.
Qed.
Section FactStoreFacts.
Import FactStore.

Local Abbreviation keys s := (map key s).

Lemma add_keys (f : fact) (s : store) :
  keys (add f s) = if bool_decide (key f ∈ keys s) then keys s
                   else keys s ++ [key f].
Proof.
  induction s as [|g s IH]; simpl.
  - reflexivity.
  - destruct (bool_decide (key g = key f)) eqn:Hg.
    + apply bool_decide_eq_true_1 in Hg. simpl.
      rewrite bool_decide_eq_true_2 by (rewrite Hg; left).
      rewrite Hg. reflexivity.
    + apply bool_decide_eq_false_1 in Hg. simpl. rewrite IH.
      destruct (bool_decide (key f ∈ keys s)) eqn:Hin.
      * apply bool_decide_eq_true_1 in Hin.
        rewrite bool_decide_eq_true_2 by (right; exact Hin). reflexivity.
      * apply bool_decide_eq_false_1 in Hin.
        rewrite bool_decide_eq_false_2; [reflexivity|].
        intros H. apply elem_of_cons in H as [H | H]; [congruence | contradiction].
Qed.

Lemma add_length (f : fact) (s : store) :
  length (add f s) = if bool_decide (key f ∈ keys s) then length s
                     else S (length s).
Proof.
  rewrite <- (length_map key (add f s)), add_keys.
  destruct (bool_decide _); rewrite ?length_app, length_map; simpl; lia.
Qed.

Lemma add_elem_of (f : fact) (s : store) (k : string * string) :
  k ∈ keys (add f s) <-> k = key f \/ k ∈ keys s.
Proof.
  rewrite add_keys. destruct (bool_decide (key f ∈ keys s)) eqn:Hin.
  - apply bool_decide_eq_true_1 in Hin. split; [auto|].
    intros [-> | H]; assumption.
  - rewrite elem_of_app, list_elem_of_singleton. tauto.
Qed.

Lemma add_NoDup (f : fact) (s : store) :
  NoDup (keys s) -> NoDup (keys (add f s)).
Proof.
  intros H. rewrite add_keys. destruct (bool_decide (key f ∈ keys s)) eqn:Hin.
  - exact H.
  - apply bool_decide_eq_false_1 in Hin.
    apply NoDup_app. split; [exact H|]. split.
    + intros x Hx Hx'. apply list_elem_of_singleton in Hx'. subst. contradiction.
    + apply NoDup_singleton.
Qed.

Lemma position_None (k : string * string) (s : store) :
  position k s = None <-> k ∉ keys s.
Proof.
  induction s as [|g s IH]; simpl.
  - split; [intros _; apply not_elem_of_nil | reflexivity].
  - destruct (bool_decide (key g = k)) eqn:Hg.
    + apply bool_decide_eq_true_1 in Hg. split; [discriminate|].
      intros H. exfalso. apply H. rewrite Hg. left.
    + apply bool_decide_eq_false_1 in Hg.
      rewrite not_elem_of_cons. destruct (position k s); simpl.
      * split; [discriminate|]. intros [_ H]. apply IH in H. discriminate.
      * split; [|reflexivity]. intros _. split; [congruence | apply IH; reflexivity].
Qed.

(** A key that is in the store keeps its position under any [add]. *)
Lemma add_position_old (f : fact) (s : store) (k : string * string) :
  k ∈ keys s -> position k (add f s) = position k s.
Proof.
  induction s as [|g s IH]; simpl; intros Hk.
  - apply elem_of_nil in Hk. contradiction.
  - destruct (bool_decide (key g = key f)) eqn:Hgf; simpl.
    + apply bool_decide_eq_true_1 in Hgf. rewrite <- Hgf. reflexivity.
    + destruct (bool_decide (key g = k)) eqn:Hg; [reflexivity|].
      apply bool_decide_eq_false_1 in Hg.
      apply elem_of_cons in Hk as [Hk | Hk]; [congruence|].
      rewrite (IH Hk). reflexivity.
Qed.

(** A new key goes to the end. *)
Lemma add_position_new (f : fact) (s : store) :
  key f ∉ keys s -> position (key f) (add f s) = Some (length s).
Proof.
  induction s as [|g s IH]; simpl; intros Hk.
  - rewrite bool_decide_eq_true_2 by reflexivity. reflexivity.
  - apply not_elem_of_cons in Hk as [Hne Hk].
    rewrite bool_decide_eq_false_2 by congruence. simpl.
    rewrite bool_decide_eq_false_2 by congruence.
    rewrite (IH Hk). reflexivity.
Qed.

Lemma add_find_same (f : fact) (s : store) :
  find (key f) (add f s) = Some f.
Proof.
  unfold find. induction s as [|g s IH]; simpl.
  - rewrite bool_decide_eq_true_2 by reflexivity. reflexivity.
  - destruct (bool_decide (key g = key f)) eqn:Hg; simpl.
    + rewrite bool_decide_eq_true_2 by reflexivity. reflexivity.
    + rewrite Hg. exact IH.
Qed.

Lemma add_find_other (f : fact) (s : store) (k : string * string) :
  key f <> k -> find k (add f s) = find k s.
Proof.
  unfold find. intros Hne. induction s as [|g s IH]; simpl.
  - rewrite bool_decide_eq_false_2 by exact Hne. reflexivity.
  - destruct (bool_decide (key g = key f)) eqn:Hg; simpl.
    + apply bool_decide_eq_true_1 in Hg.
      rewrite !bool_decide_eq_false_2 by congruence. reflexivity.
    + rewrite IH. reflexivity.
Qed.

Lemma add_all_snoc (calls : list fact) (f : fact) (s : store) :
  add_all (calls ++ [f]) s = add f (add_all calls s).
Proof. unfold add_all. rewrite fold_left_app. reflexivity. Qed.

Lemma add_all_app (pre post : list fact) (s : store) :
  add_all (pre ++ post) s = add_all post (add_all pre s).
Proof. unfold add_all. apply fold_left_app. Qed.

Lemma add_all_NoDup (calls : list fact) (s : store) :
  NoDup (keys s) -> NoDup (keys (add_all calls s)).
Proof.
  revert s. induction calls as [|f calls IH]; intros s H; simpl; [exact H|].
  apply IH, add_NoDup, H.
Qed.

Lemma add_all_elem_of (calls : list fact) (s : store) (k : string * string) :
  k ∈ keys (add_all calls s) <-> k ∈ keys calls \/ k ∈ keys s.
Proof.
  revert s. induction calls as [|f calls IH]; intros s; simpl.
  - split; [auto|]. intros [H | H]; [apply elem_of_nil in H; contradiction | exact H].
  - rewrite IH, add_elem_of, elem_of_cons. tauto.
Qed.

Lemma add_all_position_old (calls : list fact) (s : store) (k : string * string) :
  k ∈ keys s -> position k (add_all calls s) = position k s.
Proof.
  revert s. induction calls as [|f calls IH]; intros s Hk; simpl; [reflexivity|].
  rewrite IH by (apply add_elem_of; right; exact Hk).
  apply add_position_old, Hk.
Qed.

Lemma add_all_find_other (calls : list fact) (s : store) (k : string * string) :
  k ∉ keys calls -> find k (add_all calls s) = find k s.
Proof.
  revert s. induction calls as [|f calls IH]; intros s Hk; simpl; [reflexivity|].
  apply not_elem_of_cons in Hk as [Hne Hk].
  rewrite IH by exact Hk. apply add_find_other. congruence.
Qed.
End FactStoreFacts.

(** C2: after any sequence of [add] calls on an empty store, the keys of
    the store have no duplicates and are exactly the keys of the calls;
    the entry of a key sits at the position it got at its first insertion
    (the number of distinct keys inserted before it); and it carries the
    source and score of the last call with that key. *)
Theorem fact_store_dedup (calls : list FactStore.fact) :
  let s := FactStore.add_all calls [] in
  NoDup (map FactStore.key s) /\
  (forall k, k ∈ map FactStore.key s <-> k ∈ map FactStore.key calls) /\
  (forall pre f post,
     calls = pre ++ f :: post ->
     FactStore.key f ∉ map FactStore.key pre ->
     FactStore.position (FactStore.key f) s
     = Some (length (FactStore.add_all pre []))) /\
  (forall pre f post,
     calls = pre ++ f :: post ->
     FactStore.key f ∉ map FactStore.key post ->
     FactStore.find (FactStore.key f) s = Some f).
Proof.
  cbv zeta. split; [|split; [|split]].
  - apply add_all_NoDup. constructor.
  - intros k. rewrite add_all_elem_of. split; [|auto].
    intros [H | H]; [exact H | apply elem_of_nil in H; contradiction].
  - intros pre f post -> Hnew.
    rewrite add_all_app. simpl.
    rewrite add_all_position_old by (apply add_elem_of; left; reflexivity).
    apply add_position_new. rewrite add_all_elem_of.
    intros [H | H]; [contradiction | apply elem_of_nil in H; contradiction].
  - intros pre f post -> Hlast.
    rewrite add_all_app. simpl.
    rewrite add_all_find_other by exact Hlast.
    apply add_find_same.
Qed.

Section PipelineFacts.
Import Pipeline.
Variable parser : string -> string -> option (list (string * string * Z)).

(** After a replacement, the id is found and gives the new Link. *)
Lemma lookup_replace (l' : link) (ls : list link) :
  is_Some (lookup_link (id l') ls) ->
  lookup_link (id l') (replace_link l' ls) = Some l'.
Proof.
  unfold lookup_link. induction ls as [|l ls IH]; simpl.
  - intros [x H]. discriminate.
  - destruct (bool_decide (id l = id l')) eqn:Hl; simpl.
    + intros _. rewrite bool_decide_eq_true_2 by reflexivity. reflexivity.
    + rewrite Hl. exact IH.
Qed.

Lemma lookup_link_id (lid : string) (ls : list link) (l : link) :
  lookup_link lid ls = Some l -> id l = lid.
Proof.
  unfold lookup_link. intros H. apply find_some in H as [_ H].
  apply bool_decide_eq_true_1 in H. exact H.
Qed.

Lemma status_of_exit_terminal (e : Z) : terminal (status_of_exit e) = true.
Proof. unfold status_of_exit. destruct (e =? 0)%Z; reflexivity. Qed.

Lemma submit_result_rejected (lid : string) (e : Z) (out : string)
    (op : operation) :
  (lookup_link lid (links op) = None \/
   exists l, lookup_link lid (links op) = Some l /\
             terminal (link_status l) = true) ->
  submit_result parser lid e out op = (op, Rejected).
Proof.
  unfold submit_result. intros [-> | (l & -> & ->)]; reflexivity.
Qed.

(** Whatever the first call did, the Link is unknown or terminal after
    it. *)
Lemma submit_result_settles (lid : string) (e : Z) (out : string)
    (op : operation) :
  let op' := (submit_result parser lid e out op).1 in
  lookup_link lid (links op') = None \/
  exists l, lookup_link lid (links op') = Some l /\
            terminal (link_status l) = true.
Proof.
  cbv zeta. unfold submit_result.
  destruct (lookup_link lid (links op)) as [l|] eqn:Hl; [|left; exact Hl].
  destruct (terminal (link_status l)) eqn:Ht.
  - right. exists l. split; assumption.
  - right. simpl. pose proof (lookup_link_id _ _ _ Hl) as Hid.
    eexists. split.
    + rewrite <- Hid at 1.
      apply (lookup_replace
               {| id := id l; ability_id := ability_id l; paw := paw l;
                  command := command l;
                  link_status := status_of_exit e;
                  decide_time := decide_time l;
                  collect_time := collect_time l; output := out;
                  parsed_facts := extract parser l out |}).
      simpl. rewrite Hid, Hl. eexists; reflexivity.
    + simpl. apply status_of_exit_terminal.
Qed.
End PipelineFacts.

(** C3: [submit_result] for a Link that is unknown or already terminal is
    rejected and leaves the Operation as it is (its Fact Store, the
    status of every Link and its state); in particular, submitting the
    same Result a second time changes nothing, whatever the first
    submission did. *)
Theorem submit_result_idempotent
    (parser : string -> string -> option (list (string * string * Z)))
    (lid : string) (e : Z) (out : string) (op : Pipeline.operation) :
  ((Pipeline.lookup_link lid (Pipeline.links op) = None \/
    exists l, Pipeline.lookup_link lid (Pipeline.links op) = Some l /\
              Pipeline.terminal (Pipeline.link_status l) = true) ->
   Pipeline.submit_result parser lid e out op = (op, Pipeline.Rejected)) /\
  (let op' := (Pipeline.submit_result parser lid e out op).1 in
   Pipeline.submit_result parser lid e out op' = (op', Pipeline.Rejected)).
Proof.
  split.
  - apply submit_result_rejected.
  - cbv zeta. apply submit_result_rejected, submit_result_settles.
Qed.

Section SchedulerFacts.
Import Scheduler.

Lemma fire_due (now : Z) (s : schedule) :
  (next_fire_time s < now)%Z ->
  fire now s =
  ({| sched_id := sched_id s; template := template s;
      cadence := cadence s; next_fire_time := (now + cadence s)%Z |},
   [ {| from_schedule := sched_id s; op_template := template s;
        start_time := now |} ]).
Proof.
  intros H. unfold fire, due. apply Z.ltb_lt in H. rewrite H. reflexivity.
Qed.

Lemma fire_not_due (now : Z) (s : schedule) :
  (now <= next_fire_time s)%Z -> fire now s = (s, []).
Proof.
  intros H. unfold fire, due. apply Z.ltb_ge in H. rewrite H. reflexivity.
Qed.

(** One Operation per due Schedule, in the order of the Schedules. *)
Lemma tick_operations (now : Z) (ss : list schedule) :
  (tick now ss).2
  = map (fun s => NewOperation (sched_id s) (template s) now)
        (List.filter (due now) ss).
Proof.
  induction ss as [|s ss IH]; simpl; [reflexivity|].
  destruct (tick now ss) as [rest ops] eqn:Ht. simpl in IH.
  unfold fire. destruct (due now s) eqn:Hd; simpl.
  - rewrite IH. reflexivity.
  - exact IH.
Qed.

Lemma tick_rescheduled (now : Z) (ss : list schedule) :
  Forall (fun s => 0 < cadence s)%Z ss ->
  Forall (fun s => now < next_fire_time s \/ now = next_fire_time s)%Z
         (tick now ss).1.
Proof.
  induction 1 as [|s ss Hs _ IH]; simpl; [constructor|].
  destruct (tick now ss) as [rest ops]. simpl in IH.
  unfold fire. destruct (due now s) eqn:Hd; simpl; constructor; try exact IH.
  - simpl. lia.
  - unfold due in Hd. apply Z.ltb_ge in Hd. lia.
Qed.

Lemma tick_quiet (now : Z) (ss : list schedule) :
  Forall (fun s => now <= next_fire_time s)%Z ss -> tick now ss = (ss, []).
Proof.
  induction 1 as [|s ss Hs _ IH]; simpl; [reflexivity|].
  rewrite (fire_not_due now s Hs), IH. reflexivity.
Qed.
End SchedulerFacts.

(** C4: a Schedule whose next-fire-time is in the past, however many
    cadence intervals ago, fires exactly once at a tick: one Operation is
    created, the next-fire-time becomes [now + cadence], which is after
    [now], and firing again at the same time creates nothing. A tick
    creates exactly one Operation per due Schedule, and a second tick at
    the same time creates none. *)
Theorem schedule_fires_once (now : Z) (s : Scheduler.schedule)
    (ss : list Scheduler.schedule) :
  (Scheduler.next_fire_time s < now)%Z ->
  (0 < Scheduler.cadence s)%Z ->
  Forall (fun s' => 0 < Scheduler.cadence s')%Z ss ->
  (exists s' op,
     Scheduler.fire now s = (s', [op]) /\
     Scheduler.next_fire_time s' = (now + Scheduler.cadence s)%Z /\
     (now < Scheduler.next_fire_time s')%Z /\
     Scheduler.fire now s' = (s', [])) /\
  (Scheduler.tick now ss).2
  = map (fun s' => Scheduler.NewOperation (Scheduler.sched_id s')
                     (Scheduler.template s') now)
        (List.filter (Scheduler.due now) ss) /\
  Scheduler.tick now (Scheduler.tick now ss).1
  = ((Scheduler.tick now ss).1, []).
Proof.
  intros Hpast Hcad Hall. split; [|split].
  - eexists _, _. rewrite (fire_due now s Hpast).
    split; [reflexivity|]. simpl. split; [reflexivity|]. split; [lia|].
    apply fire_not_due. simpl. lia.
  - apply tick_operations.
  - apply tick_quiet.
    eapply Forall_impl; [apply (tick_rescheduled now ss Hall)|].
    simpl. intros x. lia.
Qed.

Section EngineFacts.
Import Pipeline Engine.
Variable render : string -> string -> option string.
Variable parser : string -> string -> option (list (string * string * Z)).
Variable decode : string -> option Scheduler.schedule.
Variable collect_window : Z.
Variable timeout : string -> Z.

Local Abbreviation handle := (handle render parser collect_window timeout).
Local Abbreviation run := (run render parser collect_window timeout).
















End EngineFacts.

Import Fixtures.

Example search_python :
  Regex.search (Regex.Pattern "") "Python 3.8.10" = Some "3.8.10".
Proof. reflexivity. Qed.

Example search_go :
  Regex.search (Regex.Pattern "go") "go version go1.11.4 linux/amd64"
  = Some "1.11.4".
Proof. reflexivity. Qed.

Example search_no_version :
  Regex.search (Regex.Pattern "go") "go version devel +a1b2c3" = None.
Proof. reflexivity. Qed.

Example parse_two_components :
  StrictVersion.parse "1.11"
  = Some (StrictVersion.Version (1, 11, 0)%N None).
Proof. reflexivity. Qed.

Example parse_one_component : StrictVersion.parse "3" = None.
Proof. reflexivity. Qed.

Example parse_four_components : StrictVersion.parse "1.2.3.4" = None.
Proof. reflexivity. Qed.

Example healthy_machine_passes :
  validate_environment healthy initial = (initial, Normal true).
Proof. reflexivity. Qed.

Example missing_go_passes :
  validate_environment no_go initial = (initial, Normal true).
Proof. reflexivity. Qed.

Example go_at_minimum_exits :
  validate_environment go_at_minimum initial
  = ({| ready := [];
        trace := [Log (LogError
                    "installed go version 1.11 is below the required minimum version 1.11");
                  Log (LogError exiting_msg)] |}, Exited 1%Z).
Proof. reflexivity. Qed.

Example unreadable_python_hides_old_go :
  validate_environment python_unreadable_go_old initial
  = ({| ready := []; trace := [Log (LogDebug (ValueError "3"))] |},
     Normal false).
Proof. reflexivity. Qed.

Example old_python_exits :
  validate_environment old_python initial
  = ({| ready := [];
        trace := [Log (LogError
                    "installed python version 3.5.2 is below the required minimum version 3.6.1");
                  Log (LogError exiting_msg)] |}, Exited 1%Z).
Proof. reflexivity. Qed.

(** With python 3.5.2 installed the environment check ends the
    process. *)
Example too_old_tool_terminates :
  ~ (forall code, (validate_environment old_python initial).2 <> Exited code).
Proof. intros H. apply (H 1%Z). reflexivity. Qed.



(** The healthy machine with the standard configuration is ready to
    boot, with or without [--fresh]. *)
Lemma healthy_ready_to_boot (args : Server.arguments) :
  Server.environment args = "local" ->
  Boot.ready_to_boot healthy (answers with_local) (read_yml with_local)
    (Server.Parsed args).
Proof.
  destruct args as [name flag]. simpl. intros ->.
  split; [vm_compute; discriminate|].
  eexists. split; [reflexivity|]. split.
  - exists true. split; [reflexivity|].
    unfold Boot.config_files. simpl.
    constructor; [eexists _, _; vm_compute; reflexivity|].
    constructor; [eexists _, _; vm_compute; reflexivity|].
    constructor; [eexists _, _; vm_compute; reflexivity|].
    constructor.
  - intros s. reflexivity.
Defined.

Lemma boot_order_witness :
  TCPSiteStart "0.0.0.0"
  ∈ trace (Server.main healthy (answers with_local) (read_yml with_local)
             (Server.Parsed local_args) initial).1.
Proof.
  pose proof (boot_order healthy (answers with_local) (read_yml with_local)
                (Server.Parsed local_args)) as H.
  cbv zeta in H. destruct H as (_ & _ & _ & _ & H). apply H.
  - apply healthy_ready_to_boot. reflexivity.
  - intros c. reflexivity.
Defined.

Lemma fresh_destroys_before_run_tasks_witness :
  Completed destroy
  ∈ trace (Server.main healthy (answers with_local) (read_yml with_local)
             (Server.Parsed fresh_args) initial).1
  /\ Created build_docs
  ∈ trace (Server.main healthy (answers with_local) (read_yml with_local)
             (Server.Parsed fresh_args) initial).1.
Proof.
  pose proof (fresh_destroys_before_run_tasks healthy (answers with_local)
                (read_yml with_local) (Server.Parsed fresh_args)) as H.
  cbv zeta in H. destruct H as (_ & _ & _ & _ & _ & _ & H).
  destruct (H fresh_args eq_refl eq_refl) as (_ & _ & Hdone & _).
  - apply healthy_ready_to_boot. reflexivity.
  - apply Hdone. reflexivity.
Defined.

(** C9 as stated fails: for an environment name of 300 letters there is
    no file [conf/E.yml], and the three standard files are in place, yet
    the existence test raises [OSError] (file name too long), line 98 is
    not inside a [try], and the run ends with that exception instead of
    falling back to [conf/default.yml]. *)
Lemma long_environment_name_fails :
  read_yml standard_files ("conf/" +:+ long_environment +:+ ".yml") = None /\
  name_limit standard_files ("conf/" +:+ long_environment +:+ ".yml")
  <> Some true /\
  Server.loadable (read_yml standard_files) "conf/default.yml" /\
  Server.loadable (read_yml standard_files) "conf/agents.yml" /\
  Server.loadable (read_yml standard_files) "conf/payloads.yml" /\
  Server.load_configuration (name_limit standard_files)
    (read_yml standard_files) long_args initial
  = (initial,
     Raised (OSError ("conf/" +:+ long_environment +:+ ".yml"))).
Proof.
  split; [vm_compute; reflexivity|].
  split; [vm_compute; discriminate|].
  split; [eexists _, _; vm_compute; reflexivity|].
  split; [eexists _, _; vm_compute; reflexivity|].
  split; [eexists _, _; vm_compute; reflexivity|].
  vm_compute. reflexivity.
Qed.

Lemma configuration_selection_witness :
  exists store,
    Server.load_configuration (answers standard_files)
      (read_yml standard_files) local_args initial = (initial, Normal store) /\
    store !! "default" = Some "conf/default.yml".
Proof.
  pose proof (configuration_selection (answers standard_files)
                (read_yml standard_files) "local" false initial) as H.
  cbv zeta in H. destruct H as (_ & H & _).
  destruct H as [Hmissing _].
  - eexists _, _. vm_compute. reflexivity.
  - eexists _, _. vm_compute. reflexivity.
  - destruct Hmissing as (store & Hs & Hd & _).
    + reflexivity.
    + eexists _, _. vm_compute. reflexivity.
    + exists store. split; [exact Hs | exact Hd].
Defined.


Lemma fact_store_dedup_witness :
  FactStore.position (FactStore.key host_fact)
    (FactStore.add_all [host_fact; file_fact; host_fact_again] []) = Some 0 /\
  FactStore.find (FactStore.key host_fact)
    (FactStore.add_all [host_fact; file_fact; host_fact_again] [])
  = Some host_fact_again.
Proof.
  destruct (fact_store_dedup [host_fact; file_fact; host_fact_again])
    as (_ & _ & Hpos & Hlast).
  split.
  - apply (Hpos [] host_fact [file_fact; host_fact_again]); [reflexivity|].
    apply not_elem_of_nil.
  - apply (Hlast [host_fact; file_fact] host_fact_again []); [reflexivity|].
    apply not_elem_of_nil.
Defined.

Lemma submit_result_idempotent_witness :
  Pipeline.submit_result path_parser "link-1" 0 "alice" sample_operation
  = (sample_operation, Pipeline.Rejected).
Proof.
  apply (proj1 (submit_result_idempotent path_parser "link-1" 0 "alice"
                  sample_operation)).
  right. exists done_link. split; reflexivity.
Defined.

Lemma schedule_fires_once_witness :
  exists s',
    Scheduler.fire 20000 hourly
    = (s', [Scheduler.NewOperation "nightly" "discovery" 20000]) /\
    Scheduler.next_fire_time s' = 23600%Z.
Proof.
  destruct (schedule_fires_once 20000 hourly [hourly])
    as ((s' & op & Hfire & Hnext & _) & _).
  - reflexivity.
  - reflexivity.
  - repeat constructor.
  - exists s'. split; [|exact Hnext].
    rewrite Hfire. vm_compute in Hfire. injection Hfire as _ <-. reflexivity.
Defined.

Example first_submission_accepted :
  (Pipeline.submit_result path_parser "link-2" 0 "/etc/hosts"
     sample_operation).2 = Pipeline.Accepted /\
  length (Pipeline.facts
            (Pipeline.submit_result path_parser "link-2" 0 "/etc/hosts"
               sample_operation).1) = 2.
Proof. split; reflexivity. Qed.

Example unknown_link_rejected :
  Pipeline.submit_result path_parser "link-9" 0 "/etc/hosts" sample_operation
  = (sample_operation, Pipeline.Rejected).
Proof. reflexivity. Qed.

Example catch_up_tick :
  Scheduler.tick 20000 [hourly]
  = ([Scheduler.Schedule "nightly" "discovery" 3600 23600],
     [Scheduler.NewOperation "nightly" "discovery" 20000]).
Proof. reflexivity. Qed.


Example render_failure_marks_failed :
  Pipeline.link_status
    <$> last (Pipeline.links
                (Engine.dispatch render_for_paw_1 "link-4" "whoami" "paw-2"
                   40 sample_operation).1)
  = Some Pipeline.failed.
Proof. reflexivity. Qed.

Example sweep_discards_stale_link :
  Engine.sweep 60 (fun _ => 120%Z) 100
    (Pipeline.with_links_facts sample_operation [done_link; stale_link]
       (Pipeline.facts sample_operation))
  = (Pipeline.with_links_facts sample_operation
       [done_link; Engine.with_status stale_link Pipeline.discarded]
       (Pipeline.facts sample_operation),
     [Engine.LinkDiscarded "link-3"]).
Proof. reflexivity. Qed.

Example bad_schedule_entry_skipped :
  Engine.load_schedules decode_nightly ["weekly"; "nightly"; "#!broken"]
  = ([hourly],
     [Engine.ScheduleSkipped "weekly"; Engine.ScheduleSkipped "#!broken"]).
Proof. reflexivity. Qed.
(** * Further properties of [server.py] *)

Section RegexFacts.
Import Regex.

(** The characters of a string that all belong to [[0-9\.]]. *)
Local Abbreviation in_class_all g :=
  (Forall (fun c => in_class c = true) (list_ascii_of_string g)).

(** The next character, if any, is outside [[0-9\.]]. *)
Local Abbreviation stops post :=
  (match post with
   | EmptyString => True
   | String c _ => in_class c = false
   end).

Lemma append_cons (c : ascii) (s t : string) :
  String c s +:+ t = String c (s +:+ t).
Proof. reflexivity. Qed.

Lemma append_nil (t : string) : "" +:+ t = t.
Proof. reflexivity. Qed.

Lemma append_empty (s t : string) : s +:+ t = "" -> s = "" /\ t = "".
Proof.
  destruct s; [rewrite append_nil; auto|]. rewrite append_cons. discriminate.
Qed.

Lemma run_split (s : string) :
  exists post, s = run s +:+ post /\ in_class_all (run s) /\ stops post.
Proof.
  induction s as [|c s IH]; simpl.
  - exists "". repeat split. constructor.
  - destruct (in_class c) eqn:Hc.
    + destruct IH as (post & Heq & Hall & Hstop).
      exists post. rewrite append_cons. split; [f_equal; exact Heq|].
      split; [|exact Hstop].
      constructor; assumption.
    + exists (String c s). rewrite append_nil.
      repeat split; [constructor | exact Hc].
Qed.

Lemma match_at_split (lit s g : string) :
  match_at lit s = Some g ->
  exists post,
    s = lit +:+ g +:+ post /\ g <> "" /\ in_class_all g /\ stops post.
Proof.
  revert s. induction lit as [|a lit IH]; intros s; simpl.
  - destruct s as [|c s]; [discriminate|].
    destruct (in_class c) eqn:Hc; [|discriminate].
    intros [= <-]. destruct (run_split (String c s)) as (post & Heq & Hall & Hstop).
    exists post. rewrite append_nil. split; [exact Heq|].
    split; [|split; assumption].
    simpl. rewrite Hc. discriminate.
  - destruct s as [|c s]; [discriminate|].
    destruct (Ascii.eqb a c) eqn:Hac; [|discriminate].
    apply Ascii.eqb_eq in Hac. subst c. intros H.
    destruct (IH s H) as (post & -> & Hrest). exists post.
    rewrite append_cons. split; [reflexivity | exact Hrest].
Qed.

Lemma search_split (p : pattern) (s g : string) :
  search p s = Some g ->
  exists pre rest,
    s = pre +:+ rest /\ match_at (literal p) rest = Some g /\
    forall pre1 pre2,
      pre = pre1 +:+ pre2 -> pre2 <> "" ->
      match_at (literal p) (pre2 +:+ rest) = None.
Proof.
  induction s as [|c s IH]; simpl.
  - destruct (match_at (literal p) "") as [g'|] eqn:Hm; [|discriminate].
    intros [= ->]. exists "", "". repeat split; [exact Hm|].
    intros pre1 pre2 Hp Hne. symmetry in Hp.
    apply append_empty in Hp as [_ ->]. congruence.
  - destruct (match_at (literal p) (String c s)) as [g'|] eqn:Hm.
    + intros [= ->]. exists "", (String c s). repeat split; [exact Hm|].
      intros pre1 pre2 Hp Hne. symmetry in Hp.
      apply append_empty in Hp as [_ ->]. congruence.
    + intros H. destruct (IH H) as (pre & rest & -> & Hrest & Hleft).
      exists (String c pre), rest. repeat split; [exact Hrest|].
      intros pre1 pre2 Hp Hne. destruct pre1 as [|c1 pre1].
      * rewrite append_nil in Hp. subst pre2. rewrite append_cons. exact Hm.
      * rewrite append_cons in Hp. injection Hp as -> ->.
        apply (Hleft pre1 pre2); [reflexivity | exact Hne].
Qed.

End RegexFacts.

(** X1: the version that [re.search(pattern, output).group(1)] extracts
    is never empty and holds only digits and dots; it stands in the output
    right after the literal of the pattern, it is the whole run (the next
    character is not a digit or a dot), and the pattern matches at no
    earlier position. *)
Theorem search_group (p : Regex.pattern) (s g : string) :
  Regex.search p s = Some g ->
  g <> "" /\
  Forall (fun c => Regex.in_class c = true) (list_ascii_of_string g) /\
  exists pre post,
    s = pre +:+ Regex.literal p +:+ g +:+ post /\
    match post with
    | EmptyString => True
    | String c _ => Regex.in_class c = false
    end /\
    forall pre1 pre2,
      pre = pre1 +:+ pre2 -> pre2 <> "" ->
      Regex.match_at (Regex.literal p)
        (pre2 +:+ Regex.literal p +:+ g +:+ post) = None.
Proof.
  intros H. destruct (search_split p s g H) as (pre & rest & -> & Hm & Hleft).
  destruct (match_at_split _ _ _ Hm) as (post & -> & Hne & Hall & Hstop).
  split; [exact Hne|]. split; [exact Hall|].
  exists pre, post. split; [reflexivity|]. split; [exact Hstop | exact Hleft].
Qed.

Lemma search_group_witness :
  "3.8.10" <> "" /\
  Forall (fun c => Regex.in_class c = true) (list_ascii_of_string "3.8.10").
Proof.
  destruct (search_group (Regex.Pattern "") "Python 3.8.10 (default)" "3.8.10")
    as (Hne & Hall & _); [reflexivity|].
  split; [exact Hne | exact Hall].
Defined.

Section VersionFacts.
Import Regex StrictVersion.

Local Abbreviation in_class_all g :=
  (Forall (fun c => in_class c = true) (list_ascii_of_string g)).

Lemma in_class_not_letter (c : ascii) :
  in_class c = true -> Ascii.eqb c "a" || Ascii.eqb c "b" = false.
Proof.
  destruct c as [[] [] [] [] [] [] [] []]; try discriminate; reflexivity.
Qed.

Lemma digits_rest_class (s : string) :
  forall acc, in_class_all s -> in_class_all (digits s acc).2.
Proof.
  induction s as [|c s IH]; intros acc H; simpl; [exact H|].
  destruct (is_digit c); [|exact H].
  apply IH. simpl in H. apply Forall_cons in H as [_ H]. exact H.
Qed.

Lemma number_rest_class (s : string) (n : N) (r : string) :
  in_class_all s -> number s = Some (n, r) -> in_class_all r.
Proof.
  intros H. unfold number. destruct s as [|c s]; [discriminate|].
  pose proof (digits_rest_class (String c s) 0 H) as Hr.
  remember (digits (String c s) 0) as d eqn:Hd. clear Hd.
  destruct (is_digit c); [|discriminate].
  intros [= ->]. exact Hr.
Qed.

Lemma opt_patch_rest_class (s : string) :
  in_class_all s -> in_class_all (opt_patch s).2.
Proof.
  intros H. unfold opt_patch. destruct s as [|c s]; [exact H|].
  destruct (Ascii.eqb_spec c "."); [subst|].
  - destruct (number s) as [[p r]|] eqn:Hn; simpl; [|exact H].
    apply (number_rest_class s p r); [|exact Hn].
    simpl in H. apply Forall_cons in H as [_ H]. exact H.
  - destruct c as [[] [] [] [] [] [] [] []]; try exact H. congruence.
Qed.

Lemma opt_prerelease_class (s : string) :
  in_class_all s -> opt_prerelease s = (None, s).
Proof.
  intros H. unfold opt_prerelease. destruct s as [|c s]; [reflexivity|].
  simpl in H. apply Forall_cons in H as [Hc _].
  rewrite (in_class_not_letter c Hc). reflexivity.
Qed.

(** A string of digits and dots never parses to a prerelease. *)
Lemma parse_class_release (g : string) (v : t) :
  in_class_all g -> parse g = Some v -> prerelease v = None.
Proof.
  intros H. unfold parse.
  destruct (number g) as [[major r0]|] eqn:H0; [|discriminate].
  pose proof (number_rest_class g major r0 H H0) as Hr0.
  destruct r0 as [|c r1]; [discriminate|].
  destruct (Ascii.eqb_spec c "."); [subst|];
    [|destruct c as [[] [] [] [] [] [] [] []]; try discriminate; congruence].
  destruct (number r1) as [[minor r2]|] eqn:H1; [|discriminate].
  assert (Hr1 : in_class_all r1).
  { simpl in Hr0. apply Forall_cons in Hr0 as [_ Hr0]. exact Hr0. }
  pose proof (number_rest_class r1 minor r2 Hr1 H1) as Hr2.
  pose proof (opt_patch_rest_class r2 Hr2) as Hr3.
  destruct (opt_patch r2) as [patch r3]. simpl in Hr3.
  rewrite (opt_prerelease_class r3 Hr3).
  destruct (at_end r3); [|discriminate]. intros [= <-]. reflexivity.
Qed.

(** Between releases the comparison is the numeric order of the
    triples. *)
Lemma le_release (a1 a2 a3 b1 b2 b3 : N) :
  le (Version (a1, a2, a3) None) (Version (b1, b2, b3) None) = true <->
  (a1 < b1 \/ (a1 = b1 /\ (a2 < b2 \/ (a2 = b2 /\ a3 <= b3))))%N.
Proof.
  unfold le, cmp, tuple_eqb, tuple_ltb; simpl.
  destruct (N.eqb_spec a1 b1), (N.eqb_spec a2 b2), (N.eqb_spec a3 b3),
    (N.ltb_spec a1 b1), (N.ltb_spec a2 b2), (N.ltb_spec a3 b3);
    simpl; split; intros Hx; try discriminate; try reflexivity; lia.
Qed.
End VersionFacts.

(** X2: for both entries of [versions], a tool is rejected exactly when
    its command succeeds and the version read from the output, taken as a
    triple of numbers [(major, minor, patch)] (a missing patch is 0),
    is at most the minimum in the order of number triples; a prerelease
    tag never takes part. *)
Theorem version_check_is_numeric (w : Py.world) (item : Validate.probe) :
  In item Validate.versions ->
  (Validate.rejected w item <->
   Validate.status_of w item = 0%Z /\
   exists version a b c m1 m2 m3,
     Regex.search (Validate.pattern_of item) (Validate.output_of w item)
     = Some version /\
     StrictVersion.parse version
     = Some (StrictVersion.Version (a, b, c) None) /\
     StrictVersion.parse (Validate.minimum_of item)
     = Some (StrictVersion.Version (m1, m2, m3) None) /\
     (a < m1 \/ (a = m1 /\ (b < m2 \/ (b = m2 /\ c <= m3))))%N).
Proof.
  intros Hin. unfold Validate.rejected. split.
  - intros (Hs & version & v & m & Hre & Hv & Hm & Hle).
    split; [exact Hs|].
    destruct (search_split _ _ _ Hre) as (pre0 & rest0 & _ & Hmatch & _).
    destruct (match_at_split _ _ _ Hmatch) as (post0 & _ & _ & Hall & _).
    pose proof (parse_class_release version v Hall Hv) as Hpre.
    destruct v as [[[a b] c] pre]. simpl in Hpre. subst pre.
    assert (Hmin : StrictVersion.prerelease m = None).
    { destruct Hin as [<- | [<- | []]]; vm_compute in Hm;
        injection Hm as <-; reflexivity. }
    destruct m as [[[m1 m2] m3] pre]. simpl in Hmin. subst pre.
    exists version, a, b, c, m1, m2, m3.
    repeat split; try assumption. apply le_release. exact Hle.
  - intros (Hs & version & a & b & c & m1 & m2 & m3 & Hre & Hv & Hm & Hle).
    split; [exact Hs|]. eexists version, _, _.
    repeat split; try eassumption. apply le_release. exact Hle.
Qed.

(** X3: [validate_environment] leaves the event loop alone and only adds
    log records, at most two of them, and none when it returns [True]; its
    outcome does not depend on the process it starts in. *)
Theorem validate_environment_frame (w : Py.world) (p : Py.process) :
  exists logs,
    (Validate.validate_environment w p).1
    = {| Py.ready := Py.ready p;
         Py.trace := Py.trace p ++ map Py.Log logs |} /\
    length logs <= 2 /\
    ((Validate.validate_environment w p).2 = Py.Normal true -> logs = []) /\
    (Validate.validate_environment w p).2
    = (Validate.validate_environment w Py.initial).2.
Proof.
  destruct (first_verdict w Validate.versions)
    as [Hall | (item & Hf & [Hr | [e Hu]])].
  - rewrite !(validate_all_accepted w _ Hall). exists []. simpl.
    rewrite app_nil_r. destruct p. repeat split. lia.
  - destruct (validate_rejected w item p Hf Hr) as (version & Hre & ->).
    destruct (validate_rejected w item Py.initial Hf Hr) as (version' & Hre' & ->).
    eexists [_; _]. simpl. repeat split; [lia | discriminate].
  - rewrite !(validate_unreadable w item e _ Hf Hu).
    exists [Py.LogDebug e]. simpl. repeat split; [lia | discriminate].
Qed.

(** X4: the environment check depends on the machine through the two
    probe commands only, and not even on [go version] when the python
    probe is not accepted: go is then never looked at. *)
Theorem validate_environment_depends_on_probes (w w' : Py.world)
    (p : Py.process) :
  Py.getstatusoutput w "python --version"
  = Py.getstatusoutput w' "python --version" ->
  (Py.getstatusoutput w "go version" = Py.getstatusoutput w' "go version" \/
   ~ Validate.accepted w Boot.python_probe) ->
  Validate.validate_environment w p = Validate.validate_environment w' p.
Proof.
  intros Hpy Hgo.
  unfold Validate.validate_environment, Py.try_except, Validate.versions,
    Py.for_each, Validate.check, mbind, Py.M_bind, Py.bind.
  rewrite <- Hpy.
  destruct Hgo as [Hgo | Hna]; [rewrite <- Hgo; reflexivity|].
  unfold Validate.accepted, Validate.status_of, Validate.output_of,
    Validate.pattern_of, Validate.minimum_of, Boot.python_probe in Hna.
  cbn [fst snd] in Hna.
  destruct (Py.getstatusoutput w "python --version") as [st out].
  cbn [fst snd] in Hna.
  destruct (st =? 0)%Z eqn:Hs.
  - unfold Py.group1, Py.strict_version.
    destruct (Regex.search _ out) as [version|] eqn:Hre; [|reflexivity].
    cbn.
    destruct (StrictVersion.parse version) as [v|] eqn:Hv; [|reflexivity].
    cbn.
    destruct (StrictVersion.parse "3.6.1") as [m|] eqn:Hm; [|reflexivity].
    cbn.
    destruct (StrictVersion.le v m) eqn:Hle; [reflexivity|].
    exfalso. apply Hna. right. exists version, v, m.
    repeat split; [exact Hv | exact Hle].
  - exfalso. apply Hna. left. apply Z.eqb_neq. exact Hs.
Qed.

(** The first probe that is not accepted is one of the probes. *)
Lemma first_not_accepted_In (w : world) (l : list probe) (item : probe) :
  first_not_accepted w l item -> In item l.
Proof.
  intros (before & after & -> & _). apply in_or_app. right. left. reflexivity.
Qed.

(** X14: in the environment check no exception escapes, and the only way
    the process ends is [sys.exit(1)] for a tool whose version is at or
    below the minimum. Every other error of the check (a failing command,
    an output without a version, a version that does not parse) is skipped
    or logged at debug level, and the function returns so that start-up
    goes on. *)
Theorem validate_environment_error_paths (w : world) (p : process) :
  (forall e, (validate_environment w p).2 <> Raised e) /\
  (validate_environment w p).2 <> Serving /\
  (forall code, (validate_environment w p).2 = Exited code ->
     code = 1%Z /\ exists item, In item versions /\ rejected w item) /\
  (forall item e,
     first_not_accepted w versions item -> unreadable w item e ->
     validate_environment w p =
     ({| ready := ready p; trace := trace p ++ [Log (LogDebug e)] |},
      Normal false)) /\
  ((forall item, In item versions -> ~ rejected w item) ->
   exists b, (validate_environment w p).2 = Normal b).
Proof.
  assert (Hcases :
    validate_environment w p = (p, Normal true) \/
    (exists item p', In item versions /\ rejected w item /\
       validate_environment w p = (p', Exited 1%Z)) \/
    (exists p', validate_environment w p = (p', Normal false))).
  { destruct (first_verdict w versions) as [Hall | (item & Hf & [Hr | [e Hu]])].
    - left. apply validate_all_accepted. assumption.
    - right; left.
      destruct (validate_rejected w item p Hf Hr) as (version & _ & Hv).
      eexists item, _. split; [exact (first_not_accepted_In w _ _ Hf)|].
      split; [exact Hr | exact Hv].
    - right; right. eexists. apply (validate_unreadable w item e p Hf Hu). }
  split; [|split; [|split; [|split]]].
  - intros e. destruct Hcases as [-> | [(item & p' & _ & _ & ->) | [p' ->]]];
      discriminate.
  - destruct Hcases as [-> | [(item & p' & _ & _ & ->) | [p' ->]]]; discriminate.
  - intros code.
    destruct Hcases as [-> | [(item & p' & Hin & Hr & ->) | [p' ->]]];
      simpl; try discriminate.
    intros [= <-]. split; [reflexivity|]. exists item. split; assumption.
  - intros item e Hf Hu. exact (validate_unreadable w item e p Hf Hu).
  - intros Hno.
    destruct Hcases as [-> | [(item & p' & Hin & Hr & ->) | [p' ->]]].
    + exists true. reflexivity.
    + exfalso. exact (Hno item Hin Hr).
    + exists false. reflexivity.
Qed.



(** X7: ['All systems ready.'] is logged exactly in the runs in which the
    listener has started, after [start_server] has completed and before
    the loop runs forever. *)
Theorem ready_logged_after_listener {yml : Type} (w : Py.world)
    (path_exists : string -> option bool)
    (strip_yml : string -> option (list yml)) (cmd : Server.command_line) :
  let t := Py.trace (Server.main w path_exists strip_yml cmd Py.initial).1 in
  (Py.Log (Py.LogInfo Server.all_systems_ready) ∈ t <->
   Py.TCPSiteStart "0.0.0.0" ∈ t) /\
  Trace.always_before (Py.Completed Py.start_server)
    (Py.Log (Py.LogInfo Server.all_systems_ready)) t /\
  Trace.always_before (Py.Log (Py.LogInfo Server.all_systems_ready))
    Py.RunForever t.
Proof.
  cbv zeta. split; [|split].
  - main_courses w path_exists strip_yml cmd; membership;
      intuition congruence.
  - sequence_order_check.
  - sequence_order_check.
Qed.

(** X8: in every run the listener starts only after [restore_state],
    [RestApi.enable], [register_contacts], [load_plugins] and [load_data]
    have completed, after each background task had its first step, and
    after authentication was applied, the static route added and the
    runner set up. *)
Theorem listener_starts_last {yml : Type} (w : Py.world)
    (path_exists : string -> option bool)
    (strip_yml : string -> option (list yml)) (cmd : Server.command_line) :
  let t := Py.trace (Server.main w path_exists strip_yml cmd Py.initial).1 in
  Forall (fun c => Trace.always_before (Py.Completed c)
                     (Py.TCPSiteStart "0.0.0.0") t) Boot.awaited /\
  Forall (fun c => Trace.always_before (Py.Started c)
                     (Py.TCPSiteStart "0.0.0.0") t) Boot.background /\
  Trace.always_before Py.AuthApply (Py.TCPSiteStart "0.0.0.0") t /\
  Trace.always_before (Py.AddStatic "/docs/" "docs/_build/html")
    (Py.TCPSiteStart "0.0.0.0") t /\
  Trace.always_before Py.RunnerSetup (Py.TCPSiteStart "0.0.0.0") t.
Proof.
  cbv zeta. unfold Boot.awaited, Boot.background.
  repeat (first [apply Forall_cons; split | apply Forall_nil | split]).
  all: sequence_order_check.
Qed.

(** X9: in every run each background task (the sniffer for untrusted
    agents, [resume_operations], [run_scheduler], [build_model]) is
    created only after [restore_state], [load_plugins] and [load_data]
    have completed, and has its first step only after its creation. *)
Theorem background_tasks_after_data {yml : Type} (w : Py.world)
    (path_exists : string -> option bool)
    (strip_yml : string -> option (list yml)) (cmd : Server.command_line) :
  let t := Py.trace (Server.main w path_exists strip_yml cmd Py.initial).1 in
  Forall (fun c =>
            Trace.always_before (Py.Completed Py.restore_state)
              (Py.Created c) t /\
            Trace.always_before (Py.Completed Py.load_plugins)
              (Py.Created c) t /\
            Trace.always_before (Py.Completed Py.load_data)
              (Py.Created c) t /\
            Trace.always_before (Py.Created c) (Py.Started c) t)
         Boot.background.
Proof.
  cbv zeta. unfold Boot.background.
  repeat (first [apply Forall_cons; split | apply Forall_nil | split]).
  all: sequence_order_check.
Qed.

Section OutcomeFacts.
Import Py.

Lemma is_serving_spec {A : Type} (o : outcome A) :
  o = Serving <-> Boot.is_serving o = true.
Proof. destruct o as [a|[]| |]; simpl; split; intros H; congruence. Qed.

Lemma is_normal_spec {A : Type} (o : outcome A) :
  (exists a, o = Normal a) <-> Boot.is_normal o = true.
Proof.
  destruct o as [a|e| |]; simpl; split; intros H; try discriminate.
  - reflexivity.
  - exists a. reflexivity.
  - destruct H as [a H]. discriminate.
  - destruct H as [a H]. discriminate.
  - destruct H as [a H]. discriminate.
Qed.

Lemma failed_service_spec {A : Type} (o : outcome A) (c : coro) :
  o = Raised (ServiceError c) <-> Boot.failed_service o = Some c.
Proof.
  destruct o as [a|[]| |]; simpl; split; intros H; congruence.
Qed.

Context {yml : Type}.
Variable w : Py.world.
Variable path_exists : string -> option bool.
Variable strip_yml : string -> option (list yml).

Local Abbreviation run cmd :=
  (Server.main w path_exists strip_yml cmd Py.initial).
Local Abbreviation listening cmd :=
  (Py.TCPSiteStart "0.0.0.0" ∈ Py.trace (run cmd).1).

Lemma listening_needs_environment (cmd : Server.command_line) :
  listening cmd ->
  (Validate.validate_environment w Py.initial).2 <> Py.Exited 1%Z.
Proof.
  main_courses w path_exists strip_yml cmd; membership;
    intros [=]; intros [=].
Qed.

Lemma listening_needs_command (cmd : Server.command_line) :
  listening cmd -> exists args, cmd = Server.Parsed args.
Proof.
  main_courses w path_exists strip_yml cmd; membership;
    intros [=]; eexists; reflexivity.
Qed.

Lemma listening_needs_configuration (args : Server.arguments) :
  listening (Server.Parsed args) ->
  Boot.configured path_exists strip_yml args.
Proof.
  main_courses w path_exists strip_yml (Server.Parsed args); membership;
    intros [=]; assumption.
Qed.

Lemma listening_needs_construction (args : Server.arguments) (s : service) :
  listening (Server.Parsed args) -> Py.constructs w s = true.
Proof.
  main_courses w path_exists strip_yml (Server.Parsed args); membership;
    intros [=]; destruct s; assumption.
Qed.

Lemma listening_needs_destroy (args : Server.arguments) :
  listening (Server.Parsed args) ->
  Server.fresh args = true -> Py.completes w Py.destroy = true.
Proof.
  main_courses w path_exists strip_yml (Server.Parsed args); membership;
    intros [=]; first [reflexivity | intros [=]].
Qed.

Lemma listening_needs_service (cmd : Server.command_line) (c : Py.coro) :
  c ∈ Boot.awaited ++ [Py.start_server] ->
  listening cmd -> Py.completes w c = true.
Proof.
  intros Hc. unfold Boot.awaited in Hc. simpl in Hc.
  repeat (apply elem_of_cons in Hc as [-> | Hc]);
    [| | | | | | apply elem_of_nil in Hc; contradiction].
  all: main_courses w path_exists strip_yml cmd; membership;
    intros [=]; reflexivity.
Qed.

Lemma serving_is_listening (cmd : Server.command_line) :
  Boot.is_serving (run cmd).2 = true ->
  listening cmd /\ Py.interrupted w = false.
Proof.
  main_courses w path_exists strip_yml cmd; membership;
    intros [=]; split; reflexivity.
Qed.

Lemma returning_is_interrupted (cmd : Server.command_line) :
  Boot.is_normal (run cmd).2 = true ->
  listening cmd /\ Py.interrupted w = true /\
  Py.completes w Py.teardown = true.
Proof.
  main_courses w path_exists strip_yml cmd; membership;
    intros [=]; repeat split; reflexivity.
Qed.

Lemma failed_service_raised (cmd : Server.command_line) :
  match Boot.failed_service (run cmd).2 with
  | Some c =>
      Py.completes w c = false /\
      c ∈ Py.destroy :: Boot.awaited ++ [Py.start_server; Py.teardown]
  | None => True
  end.
Proof.
  main_courses w path_exists strip_yml cmd;
    try (match goal with
         | H : _ = Py.OSError _ \/ _ = Py.IndexError |- _ =>
             destruct H as [-> | ->]; exact I
         end);
    try exact I;
    try (exfalso;
         match goal with
         | H : true = false |- _ => discriminate H
         | H : false = true |- _ => discriminate H
         end);
    (split; [reflexivity | vm_compute; repeat constructor]).
Qed.

Lemma failed_constructor_raised (cmd : Server.command_line) :
  match Boot.failed_constructor (run cmd).2 with
  | Some s => Py.constructs w s = false
  | None => True
  end.
Proof.
  main_courses w path_exists strip_yml cmd;
    try (match goal with
         | H : _ = Py.OSError _ \/ _ = Py.IndexError |- _ =>
             destruct H as [-> | ->]; exact I
         end);
    first [exact I | assumption | reflexivity].
Qed.

Lemma booted_runs (args : Server.arguments) :
  Boot.ready_to_boot w path_exists strip_yml (Server.Parsed args) ->
  (Server.fresh args = true -> Py.completes w Py.destroy = true) ->
  (forall c, c ∈ Boot.awaited ++ [Py.start_server] ->
             Py.completes w c = true) ->
  listening (Server.Parsed args) /\
  (Py.interrupted w = false ->
   Boot.is_serving (run (Server.Parsed args)).2 = true) /\
  (Py.interrupted w = true -> Py.completes w Py.teardown = true ->
   Boot.is_normal (run (Server.Parsed args)).2 = true).
Proof.
  intros (Hne & args' & [= <-] & Hconf & Hcons) Hd Hall.
  assert (H1 := Hall Py.restore_state ltac:(vm_compute; repeat constructor)).
  assert (H2 := Hall Py.rest_api_enable ltac:(vm_compute; repeat constructor)).
  assert (H3 := Hall Py.register_contacts ltac:(vm_compute; repeat constructor)).
  assert (H4 := Hall Py.load_plugins ltac:(vm_compute; repeat constructor)).
  assert (H5 := Hall Py.load_data ltac:(vm_compute; repeat constructor)).
  assert (H6 := Hall Py.start_server ltac:(vm_compute; repeat constructor)).
  clear Hall.
  main_courses w path_exists strip_yml (Server.Parsed args);
    try (match goal with
         | H : Server.fresh _ = true |- _ => specialize (Hd eq_refl)
         end);
    first [ ruled_out
          | membership;
            (split; [reflexivity|]; split; intros;
             first [reflexivity | discriminate]) ].
Qed.
End OutcomeFacts.

(** X10: the server ends up serving exactly when start-up gets through
    (the environment check does not exit, the command line parses, the
    existence test of [conf/E.yml] answers, the three configuration files
    load and every service is constructed), [destroy] completes if
    [--fresh] is given, the awaited services and [start_server] complete,
    and no Ctrl-C arrives. [main] returns exactly when all that holds,
    Ctrl-C arrives and [teardown] completes. The listener starts exactly
    when the boot conditions hold. A run that ends with the exception of a
    service names a service that raised, one of those the boot waits for:
    a background task never ends the run; and a run that ends in a
    constructor names a constructor that raised. *)
Theorem main_outcome {yml : Type} (w : Py.world)
    (path_exists : string -> option bool)
    (strip_yml : string -> option (list yml)) (cmd : Server.command_line) :
  let r := Server.main w path_exists strip_yml cmd Py.initial in
  let booted :=
    Boot.ready_to_boot w path_exists strip_yml cmd /\
    (forall args, cmd = Server.Parsed args -> Server.fresh args = true ->
                  Py.completes w Py.destroy = true) /\
    (forall c, c ∈ Boot.awaited ++ [Py.start_server] ->
               Py.completes w c = true) in
  (r.2 = Py.Serving <-> booted /\ Py.interrupted w = false) /\
  ((exists store, r.2 = Py.Normal store) <->
   booted /\ Py.interrupted w = true /\ Py.completes w Py.teardown = true) /\
  (Py.TCPSiteStart "0.0.0.0" ∈ Py.trace r.1 <-> booted) /\
  (forall c, r.2 = Py.Raised (Py.ServiceError c) ->
     Py.completes w c = false /\
     c ∈ Py.destroy :: Boot.awaited ++ [Py.start_server; Py.teardown]) /\
  (forall s, r.2 = Py.Raised (Py.ConstructorError s) ->
     Py.constructs w s = false).
Proof.
  cbv zeta.
  assert (Hneeds :
    Py.TCPSiteStart "0.0.0.0"
    ∈ Py.trace (Server.main w path_exists strip_yml cmd Py.initial).1 ->
    Boot.ready_to_boot w path_exists strip_yml cmd /\
    (forall args, cmd = Server.Parsed args -> Server.fresh args = true ->
                  Py.completes w Py.destroy = true) /\
    (forall c, c ∈ Boot.awaited ++ [Py.start_server] ->
               Py.completes w c = true)).
  { intros Hl.
    destruct (listening_needs_command w path_exists strip_yml cmd Hl)
      as [args ->].
    split; [|split].
    - split; [exact (listening_needs_environment w path_exists strip_yml
                       _ Hl)|].
      exists args. split; [reflexivity|]. split.
      + exact (listening_needs_configuration w path_exists strip_yml args Hl).
      + intros s.
        exact (listening_needs_construction w path_exists strip_yml args s Hl).
    - intros args' [= <-].
      exact (listening_needs_destroy w path_exists strip_yml args Hl).
    - intros c Hc.
      exact (listening_needs_service w path_exists strip_yml _ c Hc Hl). }
  assert (Hruns :
    Boot.ready_to_boot w path_exists strip_yml cmd /\
    (forall args, cmd = Server.Parsed args -> Server.fresh args = true ->
                  Py.completes w Py.destroy = true) /\
    (forall c, c ∈ Boot.awaited ++ [Py.start_server] ->
               Py.completes w c = true) ->
    Py.TCPSiteStart "0.0.0.0"
    ∈ Py.trace (Server.main w path_exists strip_yml cmd Py.initial).1 /\
    (Py.interrupted w = false ->
     Boot.is_serving
       (Server.main w path_exists strip_yml cmd Py.initial).2 = true) /\
    (Py.interrupted w = true -> Py.completes w Py.teardown = true ->
     Boot.is_normal
       (Server.main w path_exists strip_yml cmd Py.initial).2 = true)).
  { intros (Hready & Hd & Hall).
    destruct Hready as (Hne & args & -> & Hrest).
    apply (booted_runs w path_exists strip_yml args).
    - split; [exact Hne|]. exists args. split; [reflexivity | exact Hrest].
    - exact (Hd args eq_refl).
    - exact Hall. }
  split; [|split; [|split; [|split]]].
  - rewrite is_serving_spec. split.
    + intros Hs.
      destruct (serving_is_listening w path_exists strip_yml cmd Hs)
        as [Hl Hi].
      split; [exact (Hneeds Hl) | exact Hi].
    + intros [Hb Hi]. exact (proj1 (proj2 (Hruns Hb)) Hi).
  - rewrite is_normal_spec. split.
    + intros Hs.
      destruct (returning_is_interrupted w path_exists strip_yml cmd Hs)
        as (Hl & Hi & Ht).
      split; [exact (Hneeds Hl) | split; assumption].
    + intros [Hb [Hi Ht]]. exact (proj2 (proj2 (Hruns Hb)) Hi Ht).
  - split; [exact Hneeds|]. intros Hb. exact (proj1 (Hruns Hb)).
  - intros c Hc. apply failed_service_spec in Hc.
    pose proof (failed_service_raised w path_exists strip_yml cmd) as H.
    rewrite Hc in H. exact H.
  - intros s Hs.
    pose proof (failed_constructor_raised w path_exists strip_yml cmd) as H.
    rewrite Hs in H. exact H.
Qed.

(** X11: no coroutine is ever handed to the loop, [destroy] with
    [--fresh] included, exactly when the environment check exits, the
    command line ends the process ([-h], or arguments that the parser
    refuses), the existence test raises or one of the three configuration
    files does not load, or the constructor of a service raises; such a
    run neither serves, nor returns, nor fails in a service. *)
Theorem early_abort_creates_nothing {yml : Type} (w : Py.world)
    (path_exists : string -> option bool)
    (strip_yml : string -> option (list yml)) (cmd : Server.command_line) :
  let r := Server.main w path_exists strip_yml cmd Py.initial in
  (Boot.created_tasks (Py.trace r.1) = [] <->
   (Validate.validate_environment w Py.initial).2 = Py.Exited 1%Z \/
   cmd = Server.Help \/ cmd = Server.Usage_error \/
   exists args, cmd = Server.Parsed args /\
     (~ Boot.configured path_exists strip_yml args \/
      exists s, Py.constructs w s = false)) /\
  (Boot.created_tasks (Py.trace r.1) = [] <->
   ~ Boot.ready_to_boot w path_exists strip_yml cmd) /\
  (Boot.created_tasks (Py.trace r.1) = [] ->
   Boot.is_serving r.2 = false /\ Boot.is_normal r.2 = false /\
   Boot.failed_service r.2 = None).
Proof.
  cbv zeta. split; [|split].
  - main_courses w path_exists strip_yml cmd;
      unfold Boot.created_tasks; simpl;
      first
        [ split; [intros _; left; reflexivity | intros _; reflexivity]
        | split; [intros _; right; left; reflexivity | intros _; reflexivity]
        | split; [intros _; right; right; left; reflexivity
                 | intros _; reflexivity]
        | split; [intros _; right; right; right; eexists;
                  split; [reflexivity | left; assumption]
                 | intros _; reflexivity]
        | split; [intros _; right; right; right; eexists;
                  split; [reflexivity | right; eexists; eassumption]
                 | intros _; reflexivity]
        | split;
          [ intros [=]
          | intros [[=] | [[=] | [[=] | (a & [= <-] & [Hn | [s Hs]])]]];
            [ exfalso; exact (Hn Hcfg)
            | exfalso; destruct s;
              match goal with
              | H : Py.constructs w ?x = true,
                H' : Py.constructs w ?x = false |- _ =>
                  rewrite H in H'; discriminate H'
              end ] ] ].
  - main_courses w path_exists strip_yml cmd;
      unfold Boot.created_tasks; simpl;
      (split;
       [ first
           [ solve [intros [=]]
           | intros _ (Hne & a & Ha & Hc & Hs);
             first
               [ solve [rewrite Hv in Hne; apply Hne; reflexivity]
               | discriminate Ha
               | injection Ha as Ha;
                 first
                   [ solve [rewrite <- Ha in Hc; exact (Hcfg Hc)]
                   | match goal with
                     | H : Py.constructs w ?s = false |- _ =>
                         rewrite (Hs s) in H; discriminate H
                     end ] ] ]
       | first
           [ solve [intros _; reflexivity]
           | intros Hn; exfalso; apply Hn;
             split; [rewrite Hv; discriminate|];
             eexists; split; [reflexivity|];
             split; [assumption | intros s; destruct s; assumption] ] ]).
  - main_courses w path_exists strip_yml cmd;
      try (match goal with
           | H : _ = Py.OSError _ \/ _ = Py.IndexError |- _ =>
               destruct H as [-> | ->]
           end);
      vm_compute;
      first [solve [intros _; repeat split; reflexivity] | intros [=]].
Qed.

(** X12: reading the configuration leaves the process as it is and
    succeeds exactly when the existence test of [conf/E.yml] answers and
    the chosen file, [conf/agents.yml] and [conf/payloads.yml] each hold a
    document; the store then has exactly the keys ['default'], ['agents']
    and ['payloads']. Otherwise either the existence test has raised, and
    the run ends with its [OSError], or the exception is that of the first
    file, in this order, that does not load. An environment whose file
    is found missing behaves like [-E default], provided the existence
    test of [conf/default.yml] answers. *)
Theorem load_configuration_outcome {yml : Type}
    (path_exists : string -> option bool)
    (strip_yml : string -> option (list yml))
    (args : Server.arguments) (p : Py.process) :
  let r := Server.load_configuration path_exists strip_yml args p in
  let chosen := "conf/" +:+ Server.environment args +:+ ".yml" in
  r.1 = p /\
  (Boot.is_normal r.2 = true <->
   exists found,
     path_exists chosen = Some found /\
     Forall (Server.loadable strip_yml)
       ["conf/" +:+ (if found then Server.environment args else "default")
        +:+ ".yml"; "conf/agents.yml"; "conf/payloads.yml"]) /\
  (forall store, r.2 = Py.Normal store ->
     dom store = {["default"; "agents"; "payloads"]}) /\
  (path_exists chosen = None -> r.2 = Py.Raised (Py.OSError chosen)) /\
  (forall found, path_exists chosen = Some found ->
   Boot.is_normal r.2 = false ->
   exists e path before after,
     r.2 = Py.Raised e /\
     (e = Py.OSError path \/ e = Py.IndexError) /\
     ["conf/" +:+ (if found then Server.environment args else "default")
      +:+ ".yml"; "conf/agents.yml"; "conf/payloads.yml"]
     = before ++ path :: after /\
     Forall (Server.loadable strip_yml) before /\
     ~ Server.loadable strip_yml path) /\
  (path_exists chosen = Some false ->
   is_Some (path_exists "conf/default.yml") ->
   r = Server.load_configuration path_exists strip_yml
         {| Server.environment := "default";
            Server.fresh := Server.fresh args |} p).
Proof.
  cbv zeta. split; [|split; [|split; [|split; [|split]]]].
  - apply load_configuration_process.
  - destruct (load_configuration_cases path_exists strip_yml args p)
      as [(Hcfg & store & ->) | (Hcfg & e & path & -> & _)]; simpl.
    + split; intros _; [exact Hcfg | reflexivity].
    + split; [intros [=] | intros H; contradiction].
  - intros store.
    unfold Server.load_configuration, Server.exists_, mbind, Py.M_bind,
      Py.bind.
    destruct (path_exists _) as [found|]; simpl; [|intros [=]].
    destruct (Server.first_document strip_yml _ p) as [p1 [d| | |]];
      simpl; try (intros [=]; fail).
    destruct (Server.first_document strip_yml "conf/agents.yml" p1)
      as [p2 [a| | |]]; simpl; try (intros [=]; fail).
    destruct (Server.first_document strip_yml "conf/payloads.yml" p2)
      as [p3 [pl| | |]]; simpl; try (intros [=]; fail).
    intros [= <-]. unfold Server.apply_config.
    rewrite !dom_insert_L, dom_empty_L. set_solver.
  - intros Hnone.
    unfold Server.load_configuration, Server.exists_, Server.conf_path,
      mbind, Py.M_bind, Py.bind.
    rewrite Hnone. reflexivity.
  - intros found Hfound.
    unfold Server.load_configuration, Server.exists_, Server.conf_path,
      mbind, Py.M_bind, Py.bind.
    rewrite Hfound. cbn [Py.ret mret Py.M_ret].
    destruct (read_files_cases strip_yml args found p)
      as [(Hall & store & Hr) | (Hall & e & path & Hr & He & Hsplit)].
    + unfold mbind, Py.M_bind, Py.bind, Server.conf_path in Hr.
      rewrite Hr. simpl. intros [=].
    + unfold mbind, Py.M_bind, Py.bind, Server.conf_path in Hr.
      rewrite Hr. simpl. intros _.
      destruct Hsplit as (before & after & Hs & Hb & Hn).
      exists e, path, before, after. repeat split; assumption.
  - intros Hmissing [found Hdefault].
    unfold Server.load_configuration, Server.exists_, Server.conf_path,
      mbind, Py.M_bind, Py.bind.
    simpl. rewrite Hmissing.
    change ("conf/" +:+ "default" +:+ ".yml") with "conf/default.yml".
    rewrite Hdefault. destruct found; reflexivity.
Qed.
Section LoggingFacts.
Import Logging.

(** What the loop leaves under each name. *)
Lemma silence_lookup (names d : gmap string entry) (logger_name : string) :
  silence names d !! logger_name
  = if kept logger_name then d !! logger_name
    else match names !! logger_name with
         | Some _ => Some (Logger 100)
         | None => d !! logger_name
         end.
Proof.
  unfold silence.
  apply (map_fold_weak_ind
           (fun r m => r !! logger_name
                       = if kept logger_name then d !! logger_name
                         else match m !! logger_name with
                              | Some _ => Some (Logger 100)
                              | None => d !! logger_name
                              end)).
  - rewrite lookup_empty. destruct (kept logger_name); reflexivity.
  - intros i x m r Hi IH.
    destruct (decide (i = logger_name)) as [->|Hne].
    + rewrite lookup_insert_eq. destruct (kept logger_name) eqn:Hk.
      * exact IH.
      * unfold set_level. apply lookup_insert_eq.
    + rewrite (lookup_insert_ne m i logger_name x Hne).
      destruct (kept i); [exact IH|].
      unfold set_level. rewrite lookup_insert_ne by exact Hne. exact IH.
Qed.

Lemma silence_self (d : gmap string entry) (logger_name : string) :
  silence d d !! logger_name
  = if kept logger_name then d !! logger_name
    else (fun _ => Logger 100) <$> d !! logger_name.
Proof.
  rewrite silence_lookup. destruct (kept logger_name); [reflexivity|].
  destruct (d !! logger_name); reflexivity.
Qed.

Lemma basicConfig_handlers (st : state) :
  root_handlers (basicConfig st) <> 0.
Proof.
  unfold basicConfig. destruct (root_handlers st) eqn:E; simpl;
    [lia | rewrite E; lia].
Qed.

Lemma basicConfig_again (st : state) :
  root_handlers st <> 0 -> basicConfig st = st.
Proof.
  unfold basicConfig. destruct (root_handlers st); intros H;
    [exfalso; apply H; reflexivity | reflexivity].
Qed.
End LoggingFacts.

(** X13: [setup_logger] keeps the names of the logger dictionary; every
    name other than ['aiohttp.server'] and ['asyncio'] becomes a logger of
    level 100, which lets no record below 100 through; the two names keep
    their entry; the root logger gets level DEBUG only when it had no
    handler; running [setup_logger] again changes nothing. *)
Theorem setup_logger_levels (st : Logging.state) :
  let st' := Logging.setup_logger st in
  dom (Logging.loggerDict st') = dom (Logging.loggerDict st) /\
  (forall logger_name,
     Logging.kept logger_name = false ->
     is_Some (Logging.loggerDict st !! logger_name) ->
     Logging.loggerDict st' !! logger_name = Some (Logging.Logger 100) /\
     forall level, (level < 100)%Z ->
       Logging.enabled_for (Logging.Logger 100) level = Some false) /\
  (forall logger_name,
     Logging.kept logger_name = true ->
     Logging.loggerDict st' !! logger_name
     = Logging.loggerDict st !! logger_name) /\
  (Logging.root_level st'
   = if decide (Logging.root_handlers st = 0) then Logging.DEBUG
     else Logging.root_level st) /\
  Logging.setup_logger st' = st'.
Proof.
  cbv zeta.
  assert (Hd : Logging.loggerDict (Logging.basicConfig st)
               = Logging.loggerDict st).
  { unfold Logging.basicConfig. destruct (Logging.root_handlers st); reflexivity. }
  split; [|split; [|split; [|split]]].
  - apply set_eq. intros logger_name. rewrite !elem_of_dom. simpl.
    rewrite Hd, silence_self.
    destruct (Logging.kept logger_name); [reflexivity|].
    rewrite fmap_is_Some. reflexivity.
  - intros logger_name Hk [e He]. simpl. rewrite Hd, silence_self, Hk, He.
    split; [reflexivity|]. intros level Hl. simpl.
    f_equal. apply Z.leb_gt. exact Hl.
  - intros logger_name Hk. simpl. rewrite Hd, silence_self, Hk. reflexivity.
  - simpl. unfold Logging.basicConfig.
    destruct (Logging.root_handlers st); reflexivity.
  - unfold Logging.setup_logger at 1.
    assert (Hb : Logging.basicConfig (Logging.setup_logger st)
                 = Logging.setup_logger st).
    { apply basicConfig_again. simpl. apply basicConfig_handlers. }
    rewrite Hb. unfold Logging.setup_logger. simpl. f_equal.
    apply map_eq. intros logger_name.
    rewrite silence_self. destruct (Logging.kept logger_name) eqn:Hk;
      [reflexivity|].
    rewrite silence_self, Hk.
    destruct (Logging.loggerDict (Logging.basicConfig st) !! logger_name);
      reflexivity.
Qed.

Example go_1_9_is_rejected :
  (Validate.validate_environment Boot.go_1_9 Py.initial).2 = Py.Exited 1%Z.
Proof. reflexivity. Qed.

Example go_1_11_1_is_accepted :
  Validate.validate_environment Boot.go_1_11_1 Py.initial
  = (Py.initial, Py.Normal true).
Proof. reflexivity. Qed.

Lemma version_check_is_numeric_witness :
  Validate.rejected Boot.go_1_9 Boot.go_probe.
Proof.
  apply (proj2 (version_check_is_numeric Boot.go_1_9 Boot.go_probe
                  ltac:(right; left; reflexivity))).
  split; [reflexivity|].
  exists "1.9.7", 1%N, 9%N, 7%N, 1%N, 11%N, 0%N.
  split; [vm_compute; reflexivity|].
  split; [vm_compute; reflexivity|].
  split; [vm_compute; reflexivity|]. lia.
Defined.

Lemma validate_environment_depends_on_probes_witness :
  Validate.validate_environment Fixtures.old_python Py.initial
  = Validate.validate_environment Boot.old_python_no_go Py.initial.
Proof.
  apply validate_environment_depends_on_probes.
  - reflexivity.
  - right. intros [Hs | (version & v & m & Hre & Hv & Hm & Hle)].
    + apply Hs. reflexivity.
    + vm_compute in Hre. injection Hre as <-.
      vm_compute in Hv. injection Hv as <-.
      vm_compute in Hm. injection Hm as <-.
      vm_compute in Hle. discriminate Hle.
Defined.

Lemma validate_environment_error_paths_witness :
  exists b, (Validate.validate_environment Fixtures.no_go Py.initial).2
            = Py.Normal b.
Proof.
  apply (validate_environment_error_paths Fixtures.no_go Py.initial).
  intros item [<- | [<- | []]] (Hs & version & v & m & Hre & Hv & Hm & Hle).
  - vm_compute in Hre. injection Hre as <-.
    vm_compute in Hv. injection Hv as <-.
    vm_compute in Hm. injection Hm as <-.
    vm_compute in Hle. discriminate.
  - vm_compute in Hs. discriminate.
Defined.

Lemma main_outcome_witness :
  (Server.main Fixtures.healthy (Fixtures.answers Fixtures.with_local)
     (Fixtures.read_yml Fixtures.with_local)
     (Server.Parsed Fixtures.fresh_args) Py.initial).2 = Py.Serving.
Proof.
  apply (proj1 (main_outcome Fixtures.healthy
                  (Fixtures.answers Fixtures.with_local)
                  (Fixtures.read_yml Fixtures.with_local)
                  (Server.Parsed Fixtures.fresh_args))).
  split; [|reflexivity]. split; [|split].
  - split; [vm_compute; discriminate|].
    exists Fixtures.fresh_args. split; [reflexivity|]. split.
    + exists true. split; [reflexivity|].
      unfold Boot.config_files. simpl.
      constructor; [eexists _, _; vm_compute; reflexivity|].
      constructor; [eexists _, _; vm_compute; reflexivity|].
      constructor; [eexists _, _; vm_compute; reflexivity|].
      constructor.
    + intros s. reflexivity.
  - intros args _ _. reflexivity.
  - intros c _. reflexivity.
Defined.


Lemma early_abort_creates_nothing_witness :
  Boot.created_tasks
    (Py.trace (Server.main Fixtures.healthy
                 (Fixtures.answers Boot.no_agents)
                 (Fixtures.read_yml Boot.no_agents)
                 (Server.Parsed Fixtures.fresh_args) Py.initial).1) = [].
Proof.
  apply (proj2 (proj1 (early_abort_creates_nothing Fixtures.healthy
                         (Fixtures.answers Boot.no_agents)
                         (Fixtures.read_yml Boot.no_agents)
                         (Server.Parsed Fixtures.fresh_args)))).
  right; right; right. exists Fixtures.fresh_args. split; [reflexivity|].
  left. intros (found & _ & H). apply Forall_cons in H as [_ H].
  apply Forall_cons in H as [(d & rest & H) _]. vm_compute in H. discriminate H.
Defined.

Lemma load_configuration_outcome_witness :
  exists e path,
    (Server.load_configuration (Fixtures.answers Boot.no_agents)
       (Fixtures.read_yml Boot.no_agents) Fixtures.local_args Py.initial).2
    = Py.Raised e /\
    (e = Py.OSError path \/ e = Py.IndexError).
Proof.
  pose proof (load_configuration_outcome (Fixtures.answers Boot.no_agents)
                (Fixtures.read_yml Boot.no_agents) Fixtures.local_args
                Py.initial) as H.
  cbv zeta in H. destruct H as (_ & _ & _ & _ & Hfail & _).
  destruct (Hfail false eq_refl eq_refl)
    as (e & path & before & after & He & Hk & _).
  exists e, path. split; assumption.
Defined.

Lemma setup_logger_levels_witness :
  Logging.loggerDict (Logging.setup_logger Boot.sample_loggers)
    !! "aiohttp.access" = Some (Logging.Logger 100) /\
  Logging.loggerDict (Logging.setup_logger Boot.sample_loggers)
    !! "aiohttp.server" = Some (Logging.Logger 0).
Proof.
  destruct (setup_logger_levels Boot.sample_loggers)
    as (_ & Hsil & Hkept & _).
  split.
  - apply Hsil; [reflexivity | eexists; reflexivity].
  - rewrite (Hkept "aiohttp.server" eq_refl). reflexivity.
Defined.
